(** * npl-chess: the Streamlit chess client [chess_app.py]

    A shallow embedding of the session / token-refresh logic and of the
    game operations of [ChessApp], followed by the properties the
    specification states about them.

    Python strings are modelled as [string] (one [ascii] per character, so
    the model covers str values made of one-byte characters, the code
    points 0 to 255; [lower] and [upper] follow [str.lower] and
    [str.upper] on them).  [st.session_state] is a dictionary
    and is modelled as a [gmap string value].  The identity provider and
    the chess engine are external: they are oracles of an [Env], answering
    from the history of the network calls made so far.  A [World] carries
    the session, the messages displayed and the network calls made; the
    debugging [print] calls and the page layout are left out. *)

From Stdlib Require Import ZArith String Ascii List Lia Bool.
From Stdlib Require Import DecimalString.
From stdpp Require Import gmap strings list fin_maps.

Local Open Scope string_scope.
Local Open Scope Z_scope.

(** ** Python string primitives *)

Module Py.

(** [ord(c)] *)
Definition ord (c : ascii) : Z := Z.of_N (N_of_ascii c).

(** [chr(n)], for [0 <= n < 256] *)
Definition chr (n : Z) : ascii := ascii_of_N (Z.to_N n).

(** a one-character string, as [s[i]] yields it *)
Definition char (c : ascii) : string := String c EmptyString.

(** The cased letters among the one-byte characters: the ASCII letters
    and the accented letters of the upper half, 192 to 222 in upper case
    and 224 to 254 in lower case, each range without the sign in its
    middle (215 and 247 are the multiplication and division signs). *)
Definition is_upper (c : ascii) : bool := (65 <=? ord c) && (ord c <=? 90).
Definition is_lower (c : ascii) : bool := (97 <=? ord c) && (ord c <=? 122).
Definition is_upper_accented (c : ascii) : bool :=
  (192 <=? ord c) && (ord c <=? 214) || (216 <=? ord c) && (ord c <=? 222).
Definition is_lower_accented (c : ascii) : bool :=
  (224 <=? ord c) && (ord c <=? 246) || (248 <=? ord c) && (ord c <=? 254).

(** [c.lower()] for a one-character string [c]: again one character of
    one byte. *)
Definition lower_char (c : ascii) : ascii :=
  if is_upper c || is_upper_accented c then chr (ord c + 32) else c.

(** [c.upper()] for a one-character string [c].  The sharp s (223)
    becomes "SS".  The upper-case forms of the micro sign (181) and of
    the y with diaeresis (255) are characters beyond one byte: here the
    two characters stand for their own upper-case forms, so that
    [upper s] is a given ASCII string exactly when [s.upper()] is. *)
Definition upper_char (c : ascii) : string :=
  if is_lower c || is_lower_accented c then char (chr (ord c - 32))
  else if ord c =? 223 then "SS"
  else char c.

Fixpoint map_chars (f : ascii -> ascii) (s : string) : string :=
  match s with
  | EmptyString => EmptyString
  | String c r => String (f c) (map_chars f r)
  end.

(** [s.lower()] *)
Definition lower : string -> string := map_chars lower_char.

(** [s.upper()] *)
Fixpoint upper (s : string) : string :=
  match s with
  | EmptyString => EmptyString
  | String c r => upper_char c +:+ upper r
  end.

(** [needle in hay], the substring test *)
Fixpoint contains (needle hay : string) : bool :=
  String.prefix needle hay ||
  match hay with
  | EmptyString => false
  | String _ r => contains needle r
  end.

(** [bool(s)] : a string is truthy when it is not empty *)
Definition nonempty (s : string) : bool :=
  match s with EmptyString => false | _ => true end.

Definition len (s : string) : Z := Z.of_nat (String.length s).

Definition is_digit (c : ascii) : bool := (48 <=? ord c) && (ord c <=? 57).

End Py.

Arguments Py.contains : simpl never.

(** ** Exceptions and control flow *)

(** The handlers of the program distinguish [ValueError] (and its
    subclasses) from the other subclasses of [Exception]; [IndexError] is
    what string indexing raises.  [OtherException] stands for any other
    subclass of [Exception], such as the engine client's [ApiException]. *)
Inductive exn_class := ValueError | IndexError | OtherException.

(** An exception: its class and [str(e)]. *)
Record exn := Exn { class_of : exn_class; str : string }.

Definition is_ValueError (e : exn) : bool :=
  match class_of e with ValueError => true | _ => false end.

(** How a call ends: it returns, it raises a subclass of [Exception], or
    the run is stopped by [st.rerun()].  Streamlit is an external library:
    its [rerun] never returns to the caller, it unwinds the script with a
    control-flow exception that is not a subclass of [Exception], so no
    [except Exception] or [except ValueError] clause catches it. *)
Inductive outcome (A : Type) :=
| Return (a : A)
| Raise (e : exn)
| Rerun.
Arguments Return {A} a.
Arguments Raise {A} e.
Arguments Rerun {A}.

(** ** Data model *)

(** Values held in [st.session_state] *)
Inductive value :=
| VNone
| VStr (s : string)
| VBool (b : bool)
| VApiClient (access_token : string).
  (* an [openapi_client.ApiClient] whose configuration carries that token *)

(** Python truthiness, as used by [if not st.session_state.get(...)] *)
Definition truthy (v : value) : bool :=
  match v with
  | VNone => false
  | VStr s => Py.nonempty s
  | VBool b => b
  | VApiClient _ => true
  end.

Record Party := mkParty {
  entity : gmap string (list string);
  access : gmap string (list string)
}.

Record ChessParties := mkChessParties { white : Party; black : Party }.
Record ChessCreate := mkChessCreate { parties : ChessParties }.

Record Position := mkPosition { x : Z; y : Z }.
Record Move := mkMove { var_from : Position; to : Position }.

Inductive PieceType := PAWN | ROOK | KNIGHT | BISHOP | QUEEN | KING.
Record Piece := mkPiece {
  piece_type : PieceType; piece_color : string; position : Position
}.

(** What the engine returns for a game *)
Record Chess := mkChess {
  chess_id : string; chess_state : string; chess_parties : ChessParties
}.

Record ChessList := mkChessList { items : list Chess }.

(** The REST operations of the engine the program calls *)
Inductive engine_call :=
| create_chess (body : ChessCreate)
| get_chess_list
| get_chess_by_id (game_id : string)
| chess_get_board (game_id : string)
| chess_get_current_turn (game_id : string)
| chess_make_white_move (game_id : string) (move : Move)
| chess_make_black_move (game_id : string) (move : Move).

Definition reply_type (c : engine_call) : Type :=
  match c with
  | create_chess _ => Chess
  | get_chess_list => ChessList
  | get_chess_by_id _ => Chess
  | chess_get_board _ => list Piece
  | chess_get_current_turn _ => string
  | chess_make_white_move _ _ => unit
  | chess_make_black_move _ _ => unit
  end.

(** A network call performed by the program *)
Inductive net_event :=
| TokenPost (data : gmap string value)
    (* [requests.post] to the token endpoint with that form *)
| EngineCall (bearer : string) (c : engine_call).

(** What [requests.post(...)], [raise_for_status()] and [json()] yield
    together: an exception, or the decoded object.  The token endpoint
    answers with string fields. *)
Inductive http_reply :=
| HttpError (str_e : string)
| HttpJson (token_data : gmap string string).

(** The external collaborators. *)
Record Env := mkEnv {
  token_endpoint : list net_event -> gmap string value -> http_reply;
  engine : list net_event -> string -> forall c : engine_call, exn + reply_type c;
  dict_repr : gmap string string -> string  (* [f"{token_data}"] *)
}.

Inductive ui_msg :=
| st_error_msg (s : string)
| st_info_msg (s : string).

(** [ChessApp]'s own fields that the operations assign *)
Record ChessApp := mkChessApp {
  api_client : value;                 (* [self.api_client] *)
  configuration_access_token : value  (* [self.configuration.access_token] *)
}.

Record World := mkWorld {
  session_state : gmap string value;  (* [st.session_state] *)
  app : ChessApp;                     (* [self] *)
  ui : list ui_msg;                   (* messages displayed, oldest first *)
  net : list net_event;               (* network calls made, oldest first *)
  invocations : nat
    (* ghost: how often [with_token_refresh] has called a wrapped function *)
}.

Record AuthConfig := mkAuthConfig {
  auth_url : string; client_id : string; client_secret : string
}.

Definition auth_config : AuthConfig :=
  {| auth_url := "https://keycloak-platformdemo-chess.noumena.cloud/realms/noumena";
     client_id := "noumena";
     client_secret := "test" |}.

(** ** The state-and-exception monad of the program *)

Definition M (A : Type) : Type := World -> outcome A * World.

Definition ret {A} (a : A) : M A := fun w => (Return a, w).
Definition raise {A} (e : exn) : M A := fun w => (Raise e, w).

Definition bind {A B} (m : M A) (k : A -> M B) : M B := fun w =>
  match m w with
  | (Return a, w1) => k a w1
  | (Raise e, w1) => (Raise e, w1)
  | (Rerun, w1) => (Rerun, w1)
  end.

Notation "'let*' x := m 'in' k" := (bind m (fun x => k))
  (at level 10, x name, m at level 100, k at level 200, only parsing).
Notation "m ;;; k" := (bind m (fun _ => k))
  (at level 100, k at level 200, right associativity, only parsing).

(** [try: body  except <classes> as e: handler e] *)
Definition try_except {A} (body : M A) (caught : exn -> bool)
    (handler : exn -> M A) : M A := fun w =>
  match body w with
  | (Raise e, w1) => if caught e then handler e w1 else (Raise e, w1)
  | r => r
  end.

(** [except Exception] catches every exception of the model *)
Definition any_Exception (e : exn) : bool := true.

(** *** Session and Streamlit primitives *)

Definition set_session (m : gmap string value) (w : World) : World :=
  {| session_state := m; app := app w; ui := ui w; net := net w;
     invocations := invocations w |}.
Definition set_app (a : ChessApp) (w : World) : World :=
  {| session_state := session_state w; app := a; ui := ui w; net := net w;
     invocations := invocations w |}.
Definition set_ui (u : list ui_msg) (w : World) : World :=
  {| session_state := session_state w; app := app w; ui := u; net := net w;
     invocations := invocations w |}.
Definition set_net (n : list net_event) (w : World) : World :=
  {| session_state := session_state w; app := app w; ui := ui w; net := n;
     invocations := invocations w |}.
Definition tick (w : World) : World :=
  {| session_state := session_state w; app := app w; ui := ui w; net := net w;
     invocations := S (invocations w) |}.

(** [st.session_state.get(key)] *)
Definition session_get (key : string) : M value := fun w =>
  (Return (default VNone (session_state w !! key)), w).

(** [st.session_state.<key> = v] *)
Definition session_set (key : string) (v : value) : M unit := fun w =>
  (Return tt, set_session (<[key := v]> (session_state w)) w).

(** [st.session_state.clear()] *)
Definition session_clear : M unit := fun w => (Return tt, set_session ∅ w).

Definition st_error (s : string) : M unit := fun w =>
  (Return tt, set_ui (ui w ++ [st_error_msg s]) w).
Definition st_info (s : string) : M unit := fun w =>
  (Return tt, set_ui (ui w ++ [st_info_msg s]) w).
Definition st_rerun {A} : M A := fun w => (Rerun, w).

(** [s[i]] *)
Definition index (s : string) (i : nat) : exn + ascii :=
  match String.get i s with
  | Some c => inr c
  | None => inl (Exn IndexError "string index out of range")
  end.

(** [int(c)] for a one-character string [c] *)
Definition int (c : ascii) : exn + Z :=
  if Py.is_digit c then inr (Py.ord c - 48)
  else inl (Exn ValueError
              ("invalid literal for int() with base 10: '" +:+ Py.char c +:+ "'")).

Definition lift {A} (r : exn + A) : M A :=
  match r with inl e => raise e | inr a => ret a end.

(** The conversion of one square in [make_move] (the statements computing
    [from_x], [from_y], respectively [to_x], [to_y]); the specification
    calls it [parse_square]. *)
Definition parse_square (pos : string) : exn + Position :=
  match index pos 0 with
  | inl e => inl e
  | inr c0 =>
      let pos_x := Py.ord (Py.lower_char c0) - Py.ord "a" in
      match index pos 1 with
      | inl e => inl e
      | inr c1 =>
          match int c1 with
          | inl e => inl e
          | inr d => inr {| x := pos_x; y := d - 1 |}
          end
      end
  end.

(** Modelled from the spec: the enum [PieceColor] of the generated engine
    client is not part of the sources; its member [WHITE] is the string
    the engine reports as the current turn (spec, section 8:
    [current_turn="WHITE"]). *)
Definition PieceColor_WHITE : string := "WHITE".

(** Modelled from the spec: [to_square] does not exist in the sources
    (the board display prints the labels [a]..[h] and [8-i] itself).
    Section 3 fixes file 0 = 'a' and rank 0 = the first rank; section 4.4
    makes [to_square] the inverse of the conversion. *)
Definition to_square (p : Position) : string :=
  String (Py.chr (Py.ord "a" + x p)) (String (Py.chr (Py.ord "1" + y p)) EmptyString).

(** ** The program *)

Section ChessApp.

Variable env : Env.

(** *** Identity client *)

(** [requests.post(url, headers=headers, data=data)], [raise_for_status()]
    and [response.json()] against the token endpoint *)
Definition requests_post (data : gmap string value) : M (gmap string string) :=
  fun w =>
    let w1 := set_net (net w ++ [TokenPost data]) w in
    match token_endpoint env (net w) data with
    | HttpError str_e => (Raise (Exn OtherException str_e), w1)
    | HttpJson token_data => (Return token_data, w1)
    end.

(** [key in d] *)
Definition has_key {V} (key : string) (d : gmap string V) : bool :=
  bool_decide (is_Some (d !! key)).

(** [d[key]] *)
Definition item (d : gmap string string) (key : string) : M string :=
  match d !! key with
  | Some v => ret v
  | None => raise (Exn OtherException ("'" +:+ key +:+ "'"))  (* KeyError *)
  end.

(** The form [data] of [refresh_token] *)
Definition refresh_data (refresh_token : value) : gmap string value :=
  <["grant_type" := VStr "refresh_token"]>
  (<["client_id" := VStr (client_id auth_config)]>
  (<["client_secret" := VStr (client_secret auth_config)]>
  (<["refresh_token" := refresh_token]> ∅))).

Definition refresh_token (refresh_token : value) : M (gmap string string) :=
  try_except
    (let* token_data := requests_post (refresh_data refresh_token) in
     if negb (has_key "access_token" token_data)
        || negb (has_key "refresh_token" token_data)
     then raise (Exn ValueError
                   ("Invalid token response: " +:+ dict_repr env token_data))
     else ret token_data)
    any_Exception
    (fun e => raise (Exn ValueError ("Failed to refresh token: " +:+ str e))).

Definition ensure_valid_token : M unit :=
  let* rt := session_get "refresh_token" in
  if negb (truthy rt) then
    raise (Exn ValueError "No refresh token available. Please login again.")
  else
    try_except
      (let* token_data := refresh_token rt in
       let* access_token := item token_data "access_token" in
       (fun w => (Return tt,
          set_app {| api_client := VApiClient access_token;
                     configuration_access_token := VStr access_token |} w)) ;;;
       session_set "api_client" (VApiClient access_token) ;;;
       session_set "auth_token" (VStr access_token) ;;;
       let* new_refresh_token := item token_data "refresh_token" in
       session_set "refresh_token" (VStr new_refresh_token))
      any_Exception
      (fun e => raise (Exn ValueError "Session expired. Please login again.")).

(** *** Retry-on-expiry wrapper *)

(** The test on [str(e).lower()] *)
Definition token_signal (e : exn) : bool :=
  Py.contains "token" (Py.lower (str e))
  || Py.contains "unauthorized" (Py.lower (str e)).

(** [func(self, *args, **kwargs)], counted in the ghost field *)
Definition invoke {A} (func : M A) : M A := fun w => func (tick w).

Definition with_token_refresh {A} (func : M A) : M A :=
  try_except
    (invoke func)
    any_Exception
    (fun e =>
       if token_signal e then
         try_except
           (ensure_valid_token ;;;
            invoke func)
           is_ValueError
           (fun ve =>
              st_error (str ve) ;;;
              session_clear ;;;
              st_rerun)
       else raise e).

(** *** Engine client *)

(** [openapi_client.DefaultApi(client).<c>(...)].  An [api_client] entry
    is only ever assigned [None] or an [ApiClient]; calling through any
    other object raises [AttributeError] before any request is made. *)
Definition DefaultApi (client : value) (c : engine_call) : M (reply_type c) :=
  fun w =>
    match client with
    | VApiClient tok =>
        let w1 := set_net (net w ++ [EngineCall tok c]) w in
        match engine env (net w) tok c with
        | inl e => (Raise e, w1)
        | inr r => (Return r, w1)
        end
    | _ => (Raise (Exn OtherException "AttributeError"), w)
    end.

(** [if not st.session_state.get('api_client'): raise ValueError(...)],
    then [st.session_state.api_client] *)
Definition session_api_client : M value :=
  let* c := session_get "api_client" in
  if negb (truthy c) then raise (Exn ValueError "Please login first")
  else ret c.

Definition _create_party (claims : gmap string (list string)) : Party :=
  {| entity := claims; access := ∅ |}.

Definition _username_to_party (username : string) : Party :=
  _create_party
    (<["preferred_username" := [username]]>
     (<["iss" := [auth_url auth_config]]> ∅)).

Definition create_chess_instance_body
    (player_username opponent_username player_color : string) : M Chess :=
  let* api_client := session_api_client in
  let is_white := String.eqb (Py.upper player_color) "WHITE" in
  let white_party :=
    _username_to_party (if is_white then player_username else opponent_username) in
  let black_party :=
    _username_to_party (if is_white then opponent_username else player_username) in
  let parties := {| white := white_party; black := black_party |} in
  let chess_create := {| parties := parties |} in
  let* response := DefaultApi api_client (create_chess chess_create) in
  ret response.

Definition create_chess_instance
    (player_username opponent_username player_color : string) : M Chess :=
  with_token_refresh
    (create_chess_instance_body player_username opponent_username player_color).

Definition get_chess_games_body : M (list Chess) :=
  let* api_client := session_api_client in
  let* response := DefaultApi api_client get_chess_list in
  ret (items response).

Definition get_chess_games : M (list Chess) :=
  with_token_refresh get_chess_games_body.

Definition get_board_body (game_id : string) : M (list Piece) :=
  let* api_client := session_api_client in
  DefaultApi api_client (chess_get_board game_id).

Definition get_board (game_id : string) : M (list Piece) :=
  with_token_refresh (get_board_body game_id).

Definition get_current_turn_body (game_id : string) : M string :=
  let* api_client := session_api_client in
  DefaultApi api_client (chess_get_current_turn game_id).

Definition get_current_turn (game_id : string) : M string :=
  with_token_refresh (get_current_turn_body game_id).

Definition get_game_body (game_id : string) : M Chess :=
  let* api_client := session_api_client in
  DefaultApi api_client (get_chess_by_id game_id).

Definition get_game (game_id : string) : M Chess :=
  with_token_refresh (get_game_body game_id).

(** The [except Exception as e] clause of [make_move] *)
Definition make_move_handler (e : exn) : M unit :=
  let error_msg := str e in
  (if Py.contains "Invalid move" error_msg then
     st_error "Invalid move! Please check the rules of chess."
   else if Py.contains "Not your turn" error_msg then
     st_error "Not your turn!"
   else
     st_error "Move failed. Please try again.") ;;;
  raise (Exn ValueError "Move failed").

Definition make_move_body
    (game_id from_pos to_pos current_turn : string) : M unit :=
  try_except
    (let* api_client := session_api_client in
     let* from_position := lift (parse_square from_pos) in
     let* to_position := lift (parse_square to_pos) in
     let move := {| var_from := from_position; to := to_position |} in
     if String.eqb current_turn PieceColor_WHITE then
       DefaultApi api_client (chess_make_white_move game_id move)
     else
       DefaultApi api_client (chess_make_black_move game_id move))
    any_Exception
    make_move_handler.

Definition make_move (game_id from_pos to_pos current_turn : string) : M unit :=
  with_token_refresh (make_move_body game_id from_pos to_pos current_turn).

(** *** The move form of [main] *)

(** [a and b] on conditions that may raise: [b] is evaluated only when
    [a] is true *)
Definition and_then (a b : exn + bool) : exn + bool :=
  match a with
  | inl e => inl e
  | inr true => b
  | inr false => inr false
  end.

(** [s[i] in chars] *)
Definition index_in (s : string) (i : nat) (chars : string) : exn + bool :=
  match index s i with
  | inl e => inl e
  | inr c => inr (Py.contains (Py.char c) chars)
  end.

(** The "Basic validation" block: the value of [valid_input] *)
Definition basic_validation (is_white : bool) (from_square to_square : string)
    : M bool :=
  if Py.nonempty from_square && Py.nonempty to_square then
    let* v1 :=
      if negb ((Py.len from_square =? 2) && (Py.len to_square =? 2)) then
        st_error "Squares must be in format like 'e2'" ;;; ret false
      else ret true in
    let* files :=
      lift (and_then (index_in from_square 0 "abcdefgh")
                     (index_in to_square 0 "abcdefgh")) in
    let* v2 :=
      if negb files then
        st_error "File must be between 'a' and 'h'" ;;; ret false
      else ret v1 in
    let* ranks :=
      lift (and_then (index_in from_square 1 "12345678")
                     (index_in to_square 1 "12345678")) in
    let* v3 :=
      if negb ranks then
        st_error "Rank must be between 1 and 8" ;;; ret false
      else ret v2 in
    (if is_white then st_info "White pieces start on ranks 1 and 2"
     else st_info "Black pieces start on ranks 7 and 8") ;;;
    ret v3
  else ret true.

(** The body of [with st.form("move_form")]: [game_id] is
    [st.session_state.active_game_id], [submit] what the submit button
    returned. *)
Definition move_form (game_id : string) (is_white : bool) (current_turn : string)
    (from_square to_square : string) (submit : bool) : M unit :=
  let* valid_input := basic_validation is_white from_square to_square in
  if submit && valid_input && Py.nonempty from_square && Py.nonempty to_square then
    try_except
      (make_move game_id (Py.lower from_square) (Py.lower to_square) current_turn ;;;
       st_rerun)
      is_ValueError
      (fun e => ret tt)
  else ret tt.

End ChessApp.

(** ** The rest of [ChessApp] and the session handling of [main]

    Of the Streamlit output only [st.error] and [st.info] are recorded in
    the world; [st.success], [st.write], the headers and [st.markdown]
    leave it as it is. *)

Section Main.

Variable env : Env.

(** The form [data] of [fetch_access_token] *)
Definition password_data (username password : string) : gmap string value :=
  <["grant_type" := VStr "password"]>
  (<["client_id" := VStr (client_id auth_config)]>
  (<["client_secret" := VStr (client_secret auth_config)]>
  (<["username" := VStr username]>
  (<["password" := VStr password]> ∅)))).

Definition fetch_access_token (username password : string)
    : M (gmap string string) :=
  try_except
    (let* token_data := requests_post env (password_data username password) in
     if negb (has_key "access_token" token_data)
        || negb (has_key "refresh_token" token_data)
     then raise (Exn ValueError
                   ("Invalid token response: " +:+ dict_repr env token_data))
     else ret token_data)
    any_Exception
    (fun e => raise (Exn ValueError ("Failed to fetch access token: " +:+ str e))).

(** [self.configuration.access_token = t] and
    [self.api_client = openapi_client.ApiClient(self.configuration)] *)
Definition set_api_client (access_token : string) : M unit := fun w =>
  (Return tt,
   set_app {| api_client := VApiClient access_token;
              configuration_access_token := VStr access_token |} w).

Definition login (username password : string) : M unit :=
  try_except
    (let* token_data := fetch_access_token username password in
     let* access_token := item token_data "access_token" in
     set_api_client access_token ;;;
     session_set "api_client" (VApiClient access_token) ;;;
     session_set "username" (VStr username) ;;;
     session_set "stored_username" (VStr username) ;;;
     session_set "auth_token" (VStr access_token) ;;;
     let* new_refresh_token := item token_data "refresh_token" in
     session_set "refresh_token" (VStr new_refresh_token) ;;;
     st_rerun)
    any_Exception
    (fun e => st_error ("Login failed: " +:+ str e)).

(** [st.session_state.<key>], read: Streamlit raises [AttributeError] for
    a key that is not in the session. *)
Definition session_attr (key : string) : M value := fun w =>
  match session_state w !! key with
  | Some v => (Return v, w)
  | None =>
      (Raise (Exn OtherException
                ("st.session_state has no attribute " +:+ key)), w)
  end.

(** [if key not in st.session_state: st.session_state.<key> = v] *)
Definition init_key (key : string) (v : value) : M unit := fun w =>
  if has_key key (session_state w) then (Return tt, w)
  else session_set key v w.

(** "Initialize session state", the first lines of [main] *)
Definition init_session : M unit :=
  init_key "username" VNone ;;;
  init_key "stored_username" VNone ;;;
  init_key "api_client" VNone ;;;
  init_key "auth_token" VNone ;;;
  init_key "refresh_token" VNone ;;;
  init_key "show_create_form" (VBool false) ;;;
  init_key "active_game_id" VNone.

(** "Try to restore session if we have a token" *)
Definition restore_session : M unit :=
  let* username := session_attr "username" in
  let* has_tokens :=
    if negb (truthy username) then
      let* auth_token := session_attr "auth_token" in
      if truthy auth_token then
        let* refresh_token := session_attr "refresh_token" in
        ret (truthy refresh_token)
      else ret false
    else ret false in
  if has_tokens then
    try_except
      (ensure_valid_token env ;;;
       let* stored_username := session_get "stored_username" in
       session_set "username" stored_username)
      is_ValueError
      (fun _ => session_clear ;;; st_rerun)
  else ret tt.

(** The login form: [username] and [password] are the text typed,
    [submit] what the submit button returned. *)
Definition login_form (username password : string) (submit : bool) : M unit :=
  if submit then
    if Py.nonempty username && Py.nonempty password then login username password
    else st_error "Please enter both username and password"
  else ret tt.

(** The "Logout" button, pressed *)
Definition logout : M unit := session_clear ;;; st_rerun.

(** [v == s] for a session value and a string *)
Definition value_eq_str (v : value) (s : string) : bool :=
  match v with VStr s' => String.eqb s' s | _ => false end.

(** [st.session_state.username ==
     game.parties.white.entity.get("preferred_username")[0]] *)
Definition player_is_white (game : Chess) : M bool :=
  let* username := session_attr "username" in
  match entity (white (chess_parties game)) !! "preferred_username" with
  | None => raise (Exn OtherException "'NoneType' object is not subscriptable")
  | Some [] => raise (Exn IndexError "list index out of range")
  | Some (name :: _) => ret (value_eq_str username name)
  end.

End Main.

(** Modelled from the spec: the member [BLACK] of the enum [PieceColor],
    which is not part of the sources (spec, section 8:
    [current_turn="BLACK"]). *)
Definition PieceColor_BLACK : string := "BLACK".

(** *** [display_board] *)

(** The index of [l[i]] in a list of length [len]: negative indices count
    from the end; [None] when Python raises [IndexError]. *)
Definition list_index (len : nat) (i : Z) : option nat :=
  if (0 <=? i) && (i <? Z.of_nat len) then Some (Z.to_nat i)
  else if (- Z.of_nat len <=? i) && (i <? 0) then Some (Z.to_nat (Z.of_nat len + i))
  else None.

(** [l[i]] *)
Definition list_get {A} (l : list A) (i : Z) : exn + A :=
  match list_index (length l) i with
  | Some k =>
      match l !! k with
      | Some a => inr a
      | None => inl (Exn IndexError "list index out of range")
      end
  | None => inl (Exn IndexError "list index out of range")
  end.

(** [l[i] = a] *)
Definition list_set {A} (l : list A) (i : Z) (a : A) : exn + list A :=
  match list_index (length l) i with
  | Some k => inr (<[k := a]> l)
  | None => inl (Exn IndexError "list assignment index out of range")
  end.

(** [[[None for _ in range(8)] for _ in range(8)]] *)
Definition empty_board : list (list (option Piece)) :=
  replicate 8 (replicate 8 None).

(** The body of [for piece in pieces]: [board[y][x] = piece] assigns in
    the row that [board[y]] is. *)
Definition place_piece (board : list (list (option Piece))) (piece : Piece)
    : exn + list (list (option Piece)) :=
  let y := 7 - y (position piece) in
  let x := x (position piece) in
  match list_get board y with
  | inl e => inl e
  | inr row =>
      match list_set row x (Some piece) with
      | inl e => inl e
      | inr row' =>
          match list_index (length board) y with
          | Some k => inr (<[k := row']> board)
          | None => inl (Exn IndexError "list index out of range")
          end
      end
  end.

Fixpoint place_pieces (board : list (list (option Piece))) (pieces : list Piece)
    : exn + list (list (option Piece)) :=
  match pieces with
  | [] => inr board
  | piece :: rest =>
      match place_piece board piece with
      | inl e => inl e
      | inr board' => place_pieces board' rest
      end
  end.

Definition pieces_unicode (t : PieceType) : string :=
  match t with
  | PAWN => "♟" | ROOK => "♜" | KNIGHT => "♞"
  | BISHOP => "♝" | QUEEN => "♛" | KING => "♚"
  end.

(** The double quote inside the HTML literals *)
Definition dq : string := String "034" EmptyString.

(** [str(n)] *)
Definition str_of_int (n : Z) : string :=
  NilZero.string_of_int (Z.to_int n).

(** [(i + j) % 2 == 1] and the class it selects *)
Definition is_light (i j : nat) : bool := (Z.of_nat (i + j) mod 2 =? 1).

Definition square_class (i j : nat) : string :=
  if is_light i j then "square-light" else "square-dark".

(** The span of one square: the body of [for j, piece in enumerate(row)] *)
Definition square_span (i j : nat) (piece : option Piece) : string :=
  let piece_class :=
    match piece with
    | None => ""
    | Some p =>
        if String.eqb (piece_color p) PieceColor_WHITE
        then " piece-white" else " piece-black"
    end in
  let symbol :=
    match piece with
    | None => " "
    | Some p => pieces_unicode (piece_type p)
    end in
  "<span class=" +:+ dq +:+ square_class i j +:+ piece_class +:+ dq +:+ ">"
  +:+ symbol +:+ "</span>".

(** The line of column letters, above and below the board *)
Definition coordinate_line : list string :=
  ["<div><span class=" +:+ dq +:+ "coordinate-row" +:+ dq +:+ "> </span>"]
  ++ map (fun col =>
            "<span class=" +:+ dq +:+ "coordinate" +:+ dq +:+ ">"
            +:+ Py.char col +:+ "</span>")
         (list_ascii_of_string "abcdefgh")
  ++ ["<span class=" +:+ dq +:+ "coordinate-row" +:+ dq +:+ "> </span></div>"].

(** The body of [for i, row in enumerate(board)] *)
Definition row_html (i : nat) (row : list (option Piece)) : list string :=
  ["<div><span class=" +:+ dq +:+ "coordinate-row" +:+ dq +:+ ">"
   +:+ str_of_int (8 - Z.of_nat i) +:+ "</span>"]
  ++ imap (fun j piece => square_span i j piece) row
  ++ ["<span class=" +:+ dq +:+ "coordinate-row" +:+ dq +:+ ">"
      +:+ str_of_int (8 - Z.of_nat i) +:+ "</span></div>"].

(** The list [html] of [display_board], before [''.join(html)] *)
Definition board_html (board : list (list (option Piece))) : list string :=
  ["<div class=" +:+ dq +:+ "chess-board" +:+ dq +:+ ">"]
  ++ coordinate_line
  ++ concat (imap row_html board)
  ++ coordinate_line
  ++ ["</div>"].

(** [display_board(pieces, is_white)]: the pieces are placed, which may
    raise, and the HTML goes to [st.markdown]. *)
Definition display_board (pieces : list Piece) (is_white : bool) : M unit :=
  let* board := lift (place_pieces empty_board pieces) in
  let html := board_html board in
  ret tt.

(** *** The game page of [main] *)

Section GamePage.

Variable env : Env.

(** The [try] block of the game page: [game_id] is
    [st.session_state.active_game_id]; [from_square], [to_square] and
    [submit] are what the move form, if it is shown, returns. *)
Definition game_page (game_id from_square to_square : string) (submit : bool)
    : M unit :=
  try_except
    (let* game := get_game env game_id in
     let* board := get_board env game_id in
     let* current_turn := get_current_turn env game_id in
     let* is_white := player_is_white game in
     let player_color := if is_white then PieceColor_WHITE else PieceColor_BLACK in
     (if String.eqb current_turn player_color then ret tt
      else st_info "⏳ Waiting for opponent's move...") ;;;
     display_board board is_white ;;;
     if String.eqb current_turn player_color then
       move_form env game_id is_white current_turn from_square to_square submit
     else ret tt)
    any_Exception
    (fun e => st_error ("Error loading game: " +:+ str e)).

End GamePage.

(** ** Vocabulary of the specification *)

(** A valid square: two characters, a file in [a]..[h] and a rank in
    [1]..[8]. *)
Definition valid_square (s : string) : bool :=
  match s with
  | String f (String r EmptyString) =>
      (Py.ord "a" <=? Py.ord f) && (Py.ord f <=? Py.ord "h")
      && (Py.ord "1" <=? Py.ord r) && (Py.ord r <=? Py.ord "8")
  | _ => false
  end.

(** A valid position: file and rank in 0..7. *)
Definition valid_position (p : Position) : Prop :=
  0 <= x p <= 7 /\ 0 <= y p <= 7.

(** The three categories of a failed move, and the message [make_move]
    displays for each. *)
Inductive MoveError := InvalidMove | NotYourTurn | Unknown.

Definition move_error_message (c : MoveError) : string :=
  match c with
  | InvalidMove => "Invalid move! Please check the rules of chess."
  | NotYourTurn => "Not your turn!"
  | Unknown => "Move failed. Please try again."
  end.

(** The position of a square: the file is the letter minus 'a', the rank
    the digit minus 1. *)
Definition square_position (f r : ascii) : Position :=
  {| x := Py.ord f - Py.ord "a"; y := (Py.ord r - Py.ord "0") - 1 |}.

(** The category [make_move] gives an error text: the order of the tests
    of its handler. *)
Definition classify (error_msg : string) : MoveError :=
  if Py.contains "Invalid move" error_msg then InvalidMove
  else if Py.contains "Not your turn" error_msg then NotYourTurn
  else Unknown.

(** The engine endpoint a move goes to, by [current_turn] *)
Definition move_endpoint (current_turn game_id : string) (move : Move) : engine_call :=
  if String.eqb current_turn PieceColor_WHITE
  then chess_make_white_move game_id move
  else chess_make_black_move game_id move.

(** [create_chess_instance(player, opponent, color)], called with a client
    in the session, first sends a creation request whose white party
    carries [preferred_username = [white_name]] and whose black party
    carries [preferred_username = [black_name]], both with the configured
    issuer in [iss]; any creation request after it has the same body.
    The game of the engine's answer is the game returned: when the engine
    accepts the first request, the call returns the game of that answer;
    and whenever the call returns a game, the last request sent is a
    creation request with this body and the game is the engine's answer
    to it, so that the game has the parties above as soon as the engine
    gives the games it creates the parties requested. *)
Definition creates (env : Env) (w : World) (tok : string)
    (player opponent color white_name black_name : string) : Prop :=
  let result := create_chess_instance env player opponent color w in
  exists body rest,
    net (snd result) = (net w ++ EngineCall tok (create_chess body) :: rest)%list
    /\ (forall tok' body', In (EngineCall tok' (create_chess body')) rest -> body' = body)
    /\ entity (white (parties body)) !! "preferred_username" = Some [white_name]
    /\ entity (black (parties body)) !! "preferred_username" = Some [black_name]
    /\ entity (white (parties body)) !! "iss" = Some [auth_url auth_config]
    /\ entity (black (parties body)) !! "iss" = Some [auth_url auth_config]
    /\ (forall game : Chess,
          engine env (net w) tok (create_chess body) = inr game ->
          fst result = Return game)
    /\ (forall game : Chess,
          fst result = Return game ->
          (exists history bearer,
             net (snd result) = (history ++ [EngineCall bearer (create_chess body)])%list
             /\ engine env history bearer (create_chess body) = inr game)
          /\ ((forall history bearer (created : Chess),
                 engine env history bearer (create_chess body) = inr created ->
                 chess_parties created = parties body) ->
              entity (white (chess_parties game)) !! "preferred_username"
                = Some [white_name]
              /\ entity (black (chess_parties game)) !! "preferred_username"
                 = Some [black_name]
              /\ entity (white (chess_parties game)) !! "iss"
                 = Some [auth_url auth_config]
              /\ entity (black (chess_parties game)) !! "iss"
                 = Some [auth_url auth_config])).

(** The messages of the validation of the move form *)
Definition format_error (msg : string) : Prop :=
  msg = "Squares must be in format like 'e2'"
  \/ msg = "File must be between 'a' and 'h'"
  \/ msg = "Rank must be between 1 and 8".

(** A wrapped function that only reads the session: it leaves
    [st.session_state] as it found it (and, being no wrapper itself, the
    ghost counter too).  Every operation of [ChessApp] is of this kind. *)
Definition read_only {A} (func : M A) : Prop :=
  forall w, session_state (snd (func w)) = session_state w
            /\ invocations (snd (func w)) = invocations w.

(** The session holds the pair issued for the renewal attempted in [w1]. *)
Definition holds_renewed_pair (env : Env) (w1 w : World) : Prop :=
  exists rt token_data access_token new_refresh_token,
    session_state w1 !! "refresh_token" = Some rt
    /\ token_endpoint env (net w1) (refresh_data rt) = HttpJson token_data
    /\ token_data !! "access_token" = Some access_token
    /\ token_data !! "refresh_token" = Some new_refresh_token
    /\ session_state w !! "auth_token" = Some (VStr access_token)
    /\ session_state w !! "refresh_token" = Some (VStr new_refresh_token)
    /\ session_state w !! "api_client" = Some (VApiClient access_token).

(** ** Concrete collaborators and sessions

    Identity providers, engines and sessions on which the operations are
    run further down. *)

Module Scenario.

(** What the engine answers when it accepts a call *)
Definition accepted (c : engine_call) : reply_type c :=
  match c with
  | create_chess body =>
      {| chess_id := "game-1"; chess_state := "whiteTurn";
         chess_parties := parties body |}
  | get_chess_list => {| items := [] |}
  | get_chess_by_id game_id =>
      {| chess_id := game_id; chess_state := "whiteTurn";
         chess_parties :=
           {| white := {| entity := ∅; access := ∅ |};
              black := {| entity := ∅; access := ∅ |} |} |}
  | chess_get_board _ => []
  | chess_get_current_turn _ => "WHITE"
  | chess_make_white_move _ _ => tt
  | chess_make_black_move _ _ => tt
  end.

(** The pair the identity provider issues on renewal *)
Definition renewed_pair : gmap string string :=
  <["access_token" := "t1"]> (<["refresh_token" := "r1"]> ∅).

(** Collaborators given by what the token endpoint answers and by the
    error, if any, with which the engine rejects a bearer token *)
Definition collaborators (idp : http_reply) (rejects : string -> option exn) : Env :=
  {| token_endpoint := fun _ _ => idp;
     engine := fun _ bearer c =>
       match rejects bearer with
       | Some e => inl e
       | None => inr (accepted c)
       end;
     dict_repr := fun _ => "{...}" |}.

Definition unauthorized : exn :=
  Exn OtherException "(401) Reason: Unauthorized".

(** The engine accepts every call. *)
Definition accepting : Env :=
  collaborators (HttpJson renewed_pair) (fun _ => None).

(** The engine rejects every call with the error text [msg]. *)
Definition rejecting (msg : string) : Env :=
  collaborators (HttpJson renewed_pair) (fun _ => Some (Exn OtherException msg)).

(** The access token "t0" has expired: the engine accepts only the
    renewed token "t1", and the identity provider renews. *)
Definition expired : Env :=
  collaborators (HttpJson renewed_pair)
    (fun bearer => if String.eqb bearer "t1" then None else Some unauthorized).

(** The access token has expired and the identity provider is down. *)
Definition unrecoverable : Env :=
  collaborators (HttpError "503 Server Error") (fun _ => Some unauthorized).

(** The access token "t0" has expired, the identity provider renews, and
    the answer to the call repeated with "t1" fails the client's
    response validation, which raises a subclass of [ValueError]. *)
Definition expired_then_invalid_response : Env :=
  collaborators (HttpJson renewed_pair)
    (fun bearer =>
       if String.eqb bearer "t1"
       then Some (Exn ValueError "1 validation error for ChessList")
       else Some unauthorized).

Definition fresh_app : ChessApp :=
  {| api_client := VNone; configuration_access_token := VNone |}.

(** The session of alice after a login that issued ("t0", "r0") *)
Definition logged_in : World :=
  {| session_state :=
       <["username" := VStr "alice"]>
       (<["stored_username" := VStr "alice"]>
       (<["api_client" := VApiClient "t0"]>
       (<["auth_token" := VStr "t0"]>
       (<["refresh_token" := VStr "r0"]>
       (<["active_game_id" := VStr "game-1"]> ∅)))));
     app := fresh_app; ui := []; net := []; invocations := 0 |}.

(** The session as [main] initialises it: every key is [None]. *)
Definition logged_out : World :=
  {| session_state :=
       <["username" := VNone]>
       (<["stored_username" := VNone]>
       (<["api_client" := VNone]>
       (<["auth_token" := VNone]>
       (<["refresh_token" := VNone]>
       (<["show_create_form" := VBool false]>
       (<["active_game_id" := VNone]> ∅))))));
     app := fresh_app; ui := []; net := []; invocations := 0 |}.

(** The move from e2 to e4 *)
Definition e2e4 : Move :=
  {| var_from := {| x := 4; y := 1 |}; to := {| x := 4; y := 3 |} |}.

End Scenario.

(** Further sessions, pieces and an engine with a game in progress *)

Module Cases.

Import Scenario.

(** The session of alice without its refresh token *)
Definition without_refresh_token : World :=
  set_session (delete "refresh_token" (session_state logged_in)) logged_in.

(** A session that has the tokens and the remembered name of alice, but
    no user name *)
Definition restorable : World :=
  set_session
    (<["username" := VNone]>
     (<["api_client" := VNone]> (session_state logged_in)))
    logged_in.

Definition white_king : Piece :=
  {| piece_type := KING; piece_color := "WHITE";
     position := {| x := 4; y := 0 |} |}.
Definition white_queen : Piece :=
  {| piece_type := QUEEN; piece_color := "WHITE";
     position := {| x := 4; y := 0 |} |}.
Definition black_pawn : Piece :=
  {| piece_type := PAWN; piece_color := "BLACK";
     position := {| x := 4; y := 6 |} |}.
(** A piece the engine reports just outside the board *)
Definition stray_pawn : Piece :=
  {| piece_type := PAWN; piece_color := "BLACK";
     position := {| x := -1; y := 8 |} |}.

(** The game of alice (white) against bob *)
Definition game_1 : Chess :=
  {| chess_id := "game-1"; chess_state := "whiteTurn";
     chess_parties :=
       {| white := _username_to_party "alice";
          black := _username_to_party "bob" |} |}.

(** An engine on which [game_1] is in progress, white to move *)
Definition hosting : Env :=
  {| token_endpoint := fun _ _ => HttpJson renewed_pair;
     engine := fun _ _ c =>
       inr (match c return reply_type c with
            | get_chess_by_id _ => game_1
            | chess_get_board _ => [white_king; black_pawn]
            | c' => accepted c'
            end);
     dict_repr := fun _ => "{...}" |}.

End Cases.

(** ** Vocabulary of the further properties *)

(** [st.session_state.get(key)], as a value *)
Definition session_value (key : string) (w : World) : value :=
  default VNone (session_state w !! key).

(** The three session keys a renewal writes *)
Definition renewal_key (key : string) : bool :=
  String.eqb key "api_client" || String.eqb key "auth_token"
  || String.eqb key "refresh_token".

(** The client in the session carries the access token stored beside it. *)
Definition client_matches_token (w : World) : Prop :=
  forall a, session_state w !! "api_client" = Some (VApiClient a) ->
            session_state w !! "auth_token" = Some (VStr a).

(** A session that has a refresh token has a user name. *)
Definition tokens_have_user (w : World) : Prop :=
  truthy (session_value "refresh_token" w) = true ->
  truthy (session_value "username" w) = true.

(** The world after a renewal in [w] that issued the pair [(a, b)] *)
Definition renewed (a b : string) (w : World) : World :=
  set_session
    (<["refresh_token" := VStr b]>
     (<["auth_token" := VStr a]>
      (<["api_client" := VApiClient a]> (session_state w))))
    (set_app {| api_client := VApiClient a;
                configuration_access_token := VStr a |}
       (set_net (net w ++ [TokenPost
                   (refresh_data (session_value "refresh_token" w))]) w)).

(** What the wrapper's [except ValueError] clause leaves: the text
    displayed, the session empty, the run stopped *)
Definition cleared {A} (msg : string) (w : World) : outcome A * World :=
  (Rerun, set_session ∅ (set_ui (ui w ++ [st_error_msg msg]) w)).

(** A wrapped operation that makes the one engine call [c] through the
    client of the session: [get_game], [get_board] and [get_current_turn]
    are of this form. *)
Definition single_call (env : Env) (c : engine_call) : M (reply_type c) :=
  with_token_refresh env
    (let* api_client := session_api_client in DefaultApi env api_client c).

(** The hint the move form displays under two filled-in fields *)
Definition start_ranks_hint (is_white : bool) : string :=
  if is_white then "White pieces start on ranks 1 and 2"
  else "Black pieces start on ranks 7 and 8".

(** A board of eight rows of eight cells *)
Definition board_shape (board : list (list (option Piece))) : Prop :=
  length board = 8%nat /\ Forall (fun row => length row = 8%nat) board.

(** The cell in row [i], column [j] *)
Definition cell (board : list (list (option Piece))) (i j : nat)
    : option (option Piece) :=
  match board !! i with Some row => row !! j | None => None end.

(** The last piece of the list that stands on file [fx], rank [fy] *)
Fixpoint occupant (fx fy : Z) (pieces : list Piece) : option Piece :=
  match pieces with
  | [] => None
  | piece :: rest =>
      match occupant fx fy rest with
      | Some p => Some p
      | None =>
          if (x (position piece) =? fx) && (y (position piece) =? fy)
          then Some piece else None
      end
  end.

(** The first element of the HTML of a row: the label of the rank *)
Definition rank_label (n : Z) : string :=
  "<div><span class=" +:+ dq +:+ "coordinate-row" +:+ dq +:+ ">"
  +:+ str_of_int n +:+ "</span>".

(** The message of the game page when it is the opponent's turn *)
Definition waiting_message : string := "⏳ Waiting for opponent's move...".

(** The map after [if key not in d: d[key] = v] *)
Definition setdefault (key : string) (v : value) (m : gmap string value)
    : gmap string value :=
  match m !! key with Some _ => m | None => <[key := v]> m end.

(** [assoc key l]: the value listed first for [key] *)
Fixpoint assoc (key : string) (l : list (string * value)) : option value :=
  match l with
  | [] => None
  | (k, v) :: rest => if String.eqb key k then Some v else assoc key rest
  end.

(** The keys [main] initialises, with their initial values *)
Definition initial_values : list (string * value) :=
  [("username", VNone); ("stored_username", VNone); ("api_client", VNone);
   ("auth_token", VNone); ("refresh_token", VNone);
   ("show_create_form", VBool false); ("active_game_id", VNone)].

(** An initialised key holds the value it had, or else its initial value;
    the other keys are as they were. *)
Definition initialised (m : gmap string value) (key : string) : option value :=
  match assoc key initial_values with
  | Some v => Some (default v (m !! key))
  | None => m !! key
  end.

(** ** The coordinate translation *)

Module Coordinates.

Lemma ord_chr n : 0 <= n < 256 -> Py.ord (Py.chr n) = n.
Proof.
  intros H. unfold Py.ord, Py.chr.
  rewrite N_ascii_embedding by lia. lia.
Qed.

Lemma chr_ord c : Py.chr (Py.ord c) = c.
Proof. unfold Py.ord, Py.chr. rewrite N2Z.id. apply ascii_N_embedding. Qed.

Lemma valid_square_inv s :
  valid_square s = true ->
  exists f r, s = String f (String r EmptyString)
              /\ 97 <= Py.ord f <= 104 /\ 49 <= Py.ord r <= 56.
Proof.
  destruct s as [|f [|r [|? ?]]]; simpl; try discriminate.
  change (Py.ord "a") with 97; change (Py.ord "h") with 104.
  change (Py.ord "1") with 49; change (Py.ord "8") with 56.
  intros H. exists f, r. split; [reflexivity|].
  repeat (apply andb_prop in H; destruct H as [H ?]). lia.
Qed.

(** The conversion of [make_move] on a valid square *)
Lemma parse_square_valid f r :
  valid_square (String f (String r EmptyString)) = true ->
  parse_square (String f (String r EmptyString)) = inr (square_position f r).
Proof.
  intros H. apply valid_square_inv in H.
  destruct H as (f' & r' & [= <- <-] & Hf & Hr).
  unfold parse_square, index, int, square_position. simpl.
  unfold Py.lower_char, Py.is_upper, Py.is_upper_accented, Py.is_digit.
  change (Py.ord "a") with 97. change (Py.ord "0") with 48.
  replace (65 <=? Py.ord f) with true by lia.
  replace (Py.ord f <=? 90) with false by lia.
  replace (192 <=? Py.ord f) with false by lia.
  replace (216 <=? Py.ord f) with false by lia.
  replace (48 <=? Py.ord r) with true by lia.
  replace (Py.ord r <=? 57) with true by lia.
  reflexivity.
Qed.

Lemma to_square_position f r :
  to_square (square_position f r) = String f (String r EmptyString).
Proof.
  unfold to_square, square_position. simpl.
  change (Py.ord "a") with 97. change (Py.ord "0") with 48.
  change (Py.ord "1") with 49.
  replace (97 + (Py.ord f - 97)) with (Py.ord f) by lia.
  replace (49 + (Py.ord r - 48 - 1)) with (Py.ord r) by lia.
  now rewrite !chr_ord.
Qed.

(** C9: the round-trip laws of the coordinate translation.  Converting
    the square of a valid position gives the position back; a valid
    square converts without error, to a valid position whose square is
    the one converted. *)
Theorem parse_square_to_square_round_trip :
  (forall p, valid_position p -> parse_square (to_square p) = inr p)
  /\ (forall s, valid_square s = true ->
       exists p, parse_square s = inr p /\ valid_position p /\ to_square p = s).
Proof.
  split.
  - intros [px py] [Hx Hy]. simpl in *.
    unfold to_square, parse_square, index, int. simpl.
    unfold Py.lower_char, Py.is_upper, Py.is_upper_accented, Py.is_digit.
    change (Py.ord "a") with 97. change (Py.ord "1") with 49.
    rewrite !ord_chr by lia.
    replace (65 <=? 97 + px) with true by lia.
    replace (97 + px <=? 90) with false by lia.
    replace (192 <=? 97 + px) with false by lia.
    replace (216 <=? 97 + px) with false by lia.
    replace (48 <=? 49 + py) with true by lia.
    replace (49 + py <=? 57) with true by lia.
    simpl. rewrite !ord_chr by lia. do 2 f_equal; lia.
  - intros s H. pose proof H as H'. apply valid_square_inv in H'.
    destruct H' as (f & r & -> & Hf & Hr).
    exists (square_position f r). split; [|split].
    + now apply parse_square_valid.
    + unfold valid_position, square_position. simpl.
      change (Py.ord "a") with 97. change (Py.ord "0") with 48. lia.
    + apply to_square_position.
Qed.

End Coordinates.

(** ** Properties of the identity client and of the wrapper *)

Section Wrapper.

Variable env : Env.

Ltac run := unfold bind, ret, raise, try_except, any_Exception in *; simpl in *.

Lemma refresh_token_inv rt w r w' :
  refresh_token env rt w = (r, w') ->
  w' = set_net (net w ++ [TokenPost (refresh_data rt)]) w
  /\ ((exists msg, r = Raise (Exn ValueError msg))
      \/ (exists token_data a b,
            r = Return token_data
            /\ token_endpoint env (net w) (refresh_data rt) = HttpJson token_data
            /\ token_data !! "access_token" = Some a
            /\ token_data !! "refresh_token" = Some b)).
Proof.
  unfold refresh_token, requests_post. run.
  destruct (token_endpoint env (net w) (refresh_data rt)) as [s|d] eqn:E.
  - intros [= <- <-]. split; [reflexivity|]. left; eauto.
  - unfold has_key.
    destruct (d !! "access_token") as [a|] eqn:Ea; simpl;
      destruct (d !! "refresh_token") as [b|] eqn:Eb; simpl.
    all: repeat (rewrite bool_decide_eq_true_2 by eauto; simpl).
    all: try (rewrite (bool_decide_eq_false_2 (is_Some None))
                by (intros [? ?]; discriminate); simpl).
    all: rewrite ?orb_true_r; simpl.
    all: intros [= <- <-]; (split; [reflexivity|]).
    + right. exists d, a, b. auto.
    + left; eauto.
    + left; eauto.
    + left; eauto.
Qed.

Lemma ensure_valid_token_inv w r w' :
  ensure_valid_token env w = (r, w') ->
  ui w' = ui w /\ invocations w' = invocations w
  /\ ((exists msg, r = Raise (Exn ValueError msg)
                   /\ Py.contains "Please login again." msg = true
                   /\ (net w' = net w
                       \/ exists rt : value, net w' = (net w ++ [TokenPost (refresh_data rt)])%list))
      \/ (r = Return tt /\ holds_renewed_pair env w w'
          /\ exists rt : value, net w' = (net w ++ [TokenPost (refresh_data rt)])%list)).
Proof.
  unfold ensure_valid_token, session_get. run.
  destruct (session_state w !! "refresh_token") as [rt|] eqn:Ert; simpl.
  2: { intros [= <- <-]. repeat split. left. eexists. repeat split. now left. }
  destruct (truthy rt) eqn:Ht; simpl.
  2: { intros [= <- <-]. repeat split. left. eexists. repeat split. now left. }
  destruct (refresh_token env rt w) as [r1 w1] eqn:R.
  apply refresh_token_inv in R. destruct R as [-> R].
  destruct R as [[msg ->] | (d & a & b & -> & Hd & Ha & Hb)].
  - intros [= <- <-]. repeat split. left. eexists. repeat split. right. eauto.
  - unfold item. rewrite Ha. run. rewrite Hb. run.
    intros [= <- <-]. repeat split. right. repeat split.
    + exists rt, d, a, b. simpl. repeat split; auto.
      * rewrite lookup_insert_ne by discriminate. apply lookup_insert_eq.
      * apply lookup_insert_eq.
      * rewrite !lookup_insert_ne by discriminate. apply lookup_insert_eq.
    + eauto.
Qed.

Lemma invoke_read_only {A} (func : M A) w :
  read_only func ->
  session_state (snd (invoke func w)) = session_state w
  /\ invocations (snd (invoke func w)) = S (invocations w).
Proof. intros H. unfold invoke. destruct (H (tick w)) as [-> ->]. auto. Qed.

Lemma with_token_refresh_plain_error {A} (func : M A) w e w1 :
  invoke func w = (Raise e, w1) ->
  token_signal e = false ->
  with_token_refresh env func w = (Raise e, w1).
Proof.
  intros Hf Hs. unfold with_token_refresh, try_except, any_Exception.
  rewrite Hf, Hs. reflexivity.
Qed.

(** C8: when the first invocation of the wrapped function fails with an
    error whose description contains neither "token" nor "unauthorized"
    (case-insensitively), the wrapper raises that very error and leaves
    the world as the failed invocation left it: no call to the token
    endpoint is made and nothing is retried. *)
Theorem with_token_refresh_no_signal {A} (func : M A) w e w1 :
  invoke func w = (Raise e, w1) ->
  token_signal e = false ->
  with_token_refresh env func w = (Raise e, w1)
  /\ net (snd (with_token_refresh env func w)) = net w1.
Proof.
  intros Hf Hs.
  rewrite (with_token_refresh_plain_error func w e w1 Hf Hs). auto.
Qed.

(** C2: when the first invocation fails with a token-signal error and
    the renewal fails too, the wrapper clears the whole session, displays
    a "Please login again." message and stops the run; the wrapped
    function has been invoked once, and at most one request went to the
    token endpoint. *)
Theorem with_token_refresh_renewal_fails {A} (func : M A) w e w1 :
  read_only func ->
  invoke func w = (Raise e, w1) ->
  token_signal e = true ->
  fst (ensure_valid_token env w1) <> Return tt ->
  exists msg w',
    with_token_refresh env func w = (Rerun, w')
    /\ session_state w' = ∅
    /\ ui w' = (ui w1 ++ [st_error_msg msg])%list
    /\ Py.contains "Please login again." msg = true
    /\ invocations w' = S (invocations w)
    /\ (net w' = net w1
        \/ exists rt : value, net w' = (net w1 ++ [TokenPost (refresh_data rt)])%list).
Proof.
  intros Hro Hf Hs Hren.
  pose proof (invoke_read_only func w Hro) as [_ Hc]. rewrite Hf in Hc. simpl in Hc.
  destruct (ensure_valid_token env w1) as [r w2] eqn:E.
  destruct (ensure_valid_token_inv _ _ _ E) as (Hui & Hinv & [(msg & -> & Hm & Hn) | (-> & _)]).
  2: { simpl in Hren. congruence. }
  exists msg, (set_session ∅ (set_ui (ui w2 ++ [st_error_msg msg]) w2)).
  split.
  - unfold with_token_refresh, try_except, any_Exception.
    rewrite Hf, Hs. unfold bind. rewrite E. reflexivity.
  - simpl. rewrite Hui, Hinv. auto.
Qed.

(** C1 (amended): when the first invocation fails with a token-signal
    error and the renewal succeeds, the wrapped function is invoked
    exactly twice; and when the second invocation returns, stops the
    run, or fails with an error that is not a [ValueError], its outcome
    is the wrapper's outcome, with no further retry, and the session
    holds the newly issued access/refresh token pair. *)
Theorem with_token_refresh_renewal_succeeds {A} (func : M A) w e w1 w2 :
  read_only func ->
  invoke func w = (Raise e, w1) ->
  token_signal e = true ->
  ensure_valid_token env w1 = (Return tt, w2) ->
  invocations (snd (with_token_refresh env func w)) = (invocations w + 2)%nat
  /\ ((forall ve, fst (invoke func w2) = Raise ve -> is_ValueError ve = false) ->
      with_token_refresh env func w = invoke func w2
      /\ holds_renewed_pair env w1 (snd (with_token_refresh env func w))).
Proof.
  intros Hro Hf Hs E.
  pose proof (invoke_read_only func w Hro) as [_ Hc]. rewrite Hf in Hc. simpl in Hc.
  pose proof (invoke_read_only func w2 Hro) as [Hs2 Hc2].
  destruct (ensure_valid_token_inv _ _ _ E) as (_ & Hinv & [(msg & [=] & _) | (_ & Hp & _)]).
  assert (with_token_refresh env func w =
          match invoke func w2 with
          | (Raise ve, w3) =>
              if is_ValueError ve
              then (Rerun, set_session ∅ (set_ui (ui w3 ++ [st_error_msg (str ve)]) w3))
              else (Raise ve, w3)
          | r => r
          end) as ->.
  { unfold with_token_refresh, try_except, any_Exception.
    rewrite Hf, Hs. unfold bind. rewrite E.
    destruct (invoke func w2) as [[a|ve|] w3]; try reflexivity. }
  split.
  - destruct (invoke func w2) as [[a|ve|] w3]; simpl in *; try lia.
    destruct (is_ValueError ve); simpl; lia.
  - intros Hnv.
    destruct (invoke func w2) as [[a|ve|] w3] eqn:E2; simpl in *.
    2: rewrite (Hnv ve eq_refl).
    all: split; [reflexivity|].
    all: destruct Hp as (rt & d & a' & b' & H1 & H2 & H3 & H4 & H5 & H6 & H7).
    all: exists rt, d, a', b'; simpl; rewrite Hs2; auto 10.
Qed.

(** The network calls of a wrapped call: those of one invocation, or of
    one invocation and a failed renewal, or of one invocation, a renewal
    and a second invocation. *)
Lemma with_token_refresh_net {A} (func : M A) w :
  with_token_refresh env func w = invoke func w
  \/ (exists e w1 ve w2,
        invoke func w = (Raise e, w1)
        /\ ensure_valid_token env w1 = (Raise ve, w2)
        /\ net (snd (with_token_refresh env func w)) = net w2)
  \/ (exists e w1 w2,
        invoke func w = (Raise e, w1)
        /\ token_signal e = true
        /\ ensure_valid_token env w1 = (Return tt, w2)
        /\ net (snd (with_token_refresh env func w)) = net (snd (invoke func w2))).
Proof.
  unfold with_token_refresh, try_except, any_Exception.
  destruct (invoke func w) as [[a|e|] w1] eqn:Hf; auto.
  destruct (token_signal e) eqn:Hs; auto.
  unfold bind.
  destruct (ensure_valid_token env w1) as [r w2] eqn:E.
  destruct (ensure_valid_token_inv _ _ _ E) as (_ & _ & [(msg & -> & _) | (-> & _)]).
  - right; left. exists e, w1, (Exn ValueError msg), w2. auto.
  - right; right. exists e, w1, w2. repeat split; auto.
    destruct (invoke func w2) as [[a|ve|] w3]; try reflexivity.
    destruct (is_ValueError ve); reflexivity.
Qed.

(** A wrapped call whose first invocation returns *)
Lemma with_token_refresh_first_return {A} (func : M A) w a w1 :
  invoke func w = (Return a, w1) ->
  with_token_refresh env func w = (Return a, w1).
Proof.
  intros Hf. unfold with_token_refresh, try_except. now rewrite Hf.
Qed.

(** A wrapped call returns what its first invocation returned or, after
    a token-signal error and a renewal, what its second invocation
    returned. *)
Lemma with_token_refresh_returns {A} (func : M A) w a :
  fst (with_token_refresh env func w) = Return a ->
  (exists w1,
     invoke func w = (Return a, w1)
     /\ with_token_refresh env func w = (Return a, w1))
  \/ (exists e w1 w2 w3,
        invoke func w = (Raise e, w1)
        /\ token_signal e = true
        /\ ensure_valid_token env w1 = (Return tt, w2)
        /\ invoke func w2 = (Return a, w3)
        /\ with_token_refresh env func w = (Return a, w3)).
Proof.
  unfold with_token_refresh, try_except, any_Exception.
  destruct (invoke func w) as [[a0|e|] w1] eqn:Hf; simpl; try discriminate.
  { intros [= ->]. left. eauto. }
  destruct (token_signal e) eqn:Hs; simpl; try discriminate.
  unfold bind.
  destruct (ensure_valid_token env w1) as [r w2] eqn:E.
  destruct (ensure_valid_token_inv _ _ _ E) as (_ & _ & [(msg & -> & _) | (-> & _)]).
  { simpl. discriminate. }
  destruct (invoke func w2) as [[a0|ve|] w3] eqn:Hf2; simpl; try discriminate.
  - intros [= ->]. right. exists e, w1, w2, w3. auto.
  - destruct (is_ValueError ve); simpl; discriminate.
Qed.

End Wrapper.

(** ** Properties of the game operations *)

Section Operations.

Variable env : Env.

Ltac run :=
  unfold bind, ret, raise, lift, try_except, any_Exception, session_get in *;
  simpl in *.

Lemma make_move_handler_eq e w :
  make_move_handler e w =
    (Raise (Exn ValueError "Move failed"),
     set_ui (ui w ++ [st_error_msg (move_error_message (classify (str e)))]) w).
Proof.
  unfold make_move_handler, classify, st_error. run.
  destruct (Py.contains "Invalid move" (str e)); [reflexivity|].
  destruct (Py.contains "Not your turn" (str e)); reflexivity.
Qed.

Lemma DefaultApi_inv client c w r w' :
  DefaultApi env client c w = (r, w') ->
  r <> Rerun
  /\ session_state w' = session_state w /\ invocations w' = invocations w
  /\ ui w' = ui w.
Proof.
  unfold DefaultApi. destruct client; try (intros [= <- <-]; now auto).
  destruct (engine env (net w) access_token c); intros [= <- <-]; now auto.
Qed.

(** What [make_move] does once the session has a client and both squares
    convert: one request, and on failure one message and the fixed
    [ValueError]. *)
Lemma make_move_body_logged_in game_id from_pos to_pos current_turn w tok p q :
  session_state w !! "api_client" = Some (VApiClient tok) ->
  parse_square from_pos = inr p ->
  parse_square to_pos = inr q ->
  let call := move_endpoint current_turn game_id {| var_from := p; to := q |} in
  let w1 := set_net (net w ++ [EngineCall tok call]) w in
  make_move_body env game_id from_pos to_pos current_turn w =
    match engine env (net w) tok call with
    | inr _ => (Return tt, w1)
    | inl e =>
        (Raise (Exn ValueError "Move failed"),
         set_ui (ui w ++ [st_error_msg (move_error_message (classify (str e)))]) w1)
    end.
Proof.
  intros Hc Hp Hq. unfold make_move_body, session_api_client, move_endpoint.
  run. rewrite Hc, Hp, Hq. simpl.
  destruct (String.eqb current_turn PieceColor_WHITE); unfold DefaultApi.
  all: match goal with |- context [engine env ?h ?t ?c] =>
         destruct (engine env h t c) as [e|[]] end.
  all: try reflexivity.
  all: rewrite make_move_handler_eq; reflexivity.
Qed.

(** Whatever happens inside [make_move], it returns or raises the fixed
    [ValueError("Move failed")], and it does not write the session. *)
Lemma make_move_body_outcome game_id from_pos to_pos current_turn w r w' :
  make_move_body env game_id from_pos to_pos current_turn w = (r, w') ->
  (r = Return tt \/ r = Raise (Exn ValueError "Move failed"))
  /\ session_state w' = session_state w /\ invocations w' = invocations w.
Proof.
  unfold make_move_body, session_api_client. run.
  destruct (truthy (default VNone (session_state w !! "api_client"))); simpl.
  2: { rewrite make_move_handler_eq. intros [= <- <-]. auto. }
  destruct (parse_square from_pos) as [e|p]; simpl.
  { rewrite make_move_handler_eq. intros [= <- <-]. auto. }
  destruct (parse_square to_pos) as [e|q]; simpl.
  { rewrite make_move_handler_eq. intros [= <- <-]. auto. }
  destruct (String.eqb current_turn PieceColor_WHITE).
  all: match goal with |- context [DefaultApi env ?v ?c ?w0] =>
         destruct (DefaultApi env v c w0) as [[[]|e|] w1] eqn:E end.
  all: apply DefaultApi_inv in E; destruct E as (Hr & Hs & Hi & Hu).
  all: try congruence.
  all: try rewrite make_move_handler_eq.
  all: intros [= <- <-]; simpl; auto.
Qed.

(** The wrapper never fires around [make_move]: the only error the body
    lets out reads "Move failed", which carries no token signal. *)
Lemma make_move_unwrapped game_id from_pos to_pos current_turn w :
  make_move env game_id from_pos to_pos current_turn w =
  invoke (make_move_body env game_id from_pos to_pos current_turn) w.
Proof.
  unfold make_move, with_token_refresh, try_except, any_Exception.
  destruct (invoke _ w) as [[[]|e|] w1] eqn:E; try reflexivity.
  unfold invoke in E. apply make_move_body_outcome in E.
  destruct E as [[[=]|[= ->]] _]. reflexivity.
Qed.

Lemma make_move_logged_in game_id from_pos to_pos current_turn w tok p q :
  session_state w !! "api_client" = Some (VApiClient tok) ->
  parse_square from_pos = inr p ->
  parse_square to_pos = inr q ->
  let call := move_endpoint current_turn game_id {| var_from := p; to := q |} in
  let w1 := set_net (net w ++ [EngineCall tok call]) (tick w) in
  make_move env game_id from_pos to_pos current_turn w =
    match engine env (net w) tok call with
    | inr _ => (Return tt, w1)
    | inl e =>
        (Raise (Exn ValueError "Move failed"),
         set_ui (ui w ++ [st_error_msg (move_error_message (classify (str e)))]) w1)
    end.
Proof.
  intros Hc Hp Hq. rewrite make_move_unwrapped. unfold invoke.
  now rewrite (make_move_body_logged_in _ _ _ _ (tick w) tok p q).
Qed.

Lemma make_move_net game_id from_pos to_pos current_turn w tok p q :
  session_state w !! "api_client" = Some (VApiClient tok) ->
  parse_square from_pos = inr p ->
  parse_square to_pos = inr q ->
  net (snd (make_move env game_id from_pos to_pos current_turn w)) =
  (net w ++ [EngineCall tok
               (move_endpoint current_turn game_id {| var_from := p; to := q |})])%list.
Proof.
  intros Hc Hp Hq.
  rewrite (make_move_logged_in _ _ _ _ w tok p q) by assumption.
  destruct (engine env _ _ _); reflexivity.
Qed.

(** C4: with a client in the session, [make_move(id, "e2", "e4", "WHITE")]
    sends the move from (4, 1) to (4, 3) to the white-move endpoint, and
    with "BLACK" the same move to the black-move endpoint; for every pair
    of valid squares the positions sent are letter minus 'a' and digit
    minus 1, and this request is the only network call made. *)
Theorem make_move_sends_translated_move game_id tok w :
  session_state w !! "api_client" = Some (VApiClient tok) ->
  let sent current_turn from_pos to_pos :=
    net (snd (make_move env game_id from_pos to_pos current_turn w)) in
  let e2e4 := {| var_from := {| x := 4; y := 1 |}; to := {| x := 4; y := 3 |} |} in
  sent "WHITE" "e2" "e4"
    = (net w ++ [EngineCall tok (chess_make_white_move game_id e2e4)])%list
  /\ sent "BLACK" "e2" "e4"
    = (net w ++ [EngineCall tok (chess_make_black_move game_id e2e4)])%list
  /\ forall f1 r1 f2 r2,
      let from_pos := String f1 (String r1 EmptyString) in
      let to_pos := String f2 (String r2 EmptyString) in
      let move := {| var_from := square_position f1 r1;
                     to := square_position f2 r2 |} in
      valid_square from_pos = true ->
      valid_square to_pos = true ->
      sent "WHITE" from_pos to_pos
        = (net w ++ [EngineCall tok (chess_make_white_move game_id move)])%list
      /\ sent "BLACK" from_pos to_pos
        = (net w ++ [EngineCall tok (chess_make_black_move game_id move)])%list.
Proof.
  intros Hc. cbv zeta.
  assert (forall f1 r1 f2 r2,
    valid_square (String f1 (String r1 EmptyString)) = true ->
    valid_square (String f2 (String r2 EmptyString)) = true ->
    forall current_turn,
    net (snd (make_move env game_id (String f1 (String r1 EmptyString))
                (String f2 (String r2 EmptyString)) current_turn w)) =
    (net w ++ [EngineCall tok
                 (move_endpoint current_turn game_id
                    {| var_from := square_position f1 r1;
                       to := square_position f2 r2 |})])%list) as G.
  { intros f1 r1 f2 r2 H1 H2 current_turn.
    apply make_move_net; auto using Coordinates.parse_square_valid. }
  split; [|split].
  - apply (G "e"%char "2"%char "e"%char "4"%char eq_refl eq_refl "WHITE").
  - apply (G "e"%char "2"%char "e"%char "4"%char eq_refl eq_refl "BLACK").
  - intros f1 r1 f2 r2 H1 H2. split.
    + apply (G f1 r1 f2 r2 H1 H2 "WHITE").
    + apply (G f1 r1 f2 r2 H1 H2 "BLACK").
Qed.

(** C6 (amended): when the engine call inside [make_move] fails,
    [make_move] displays exactly one message, that of the category of the
    error text -- [InvalidMove] when the text contains "Invalid move",
    otherwise [NotYourTurn] when it contains "Not your turn", otherwise
    [Unknown] -- and raises the fixed [ValueError("Move failed")],
    whatever the category: neither the message nor the error carries the
    text of the engine's error. *)
Theorem make_move_classifies_failure
    game_id from_pos to_pos current_turn w tok p q e :
  session_state w !! "api_client" = Some (VApiClient tok) ->
  parse_square from_pos = inr p ->
  parse_square to_pos = inr q ->
  engine env (net w) tok
    (move_endpoint current_turn game_id {| var_from := p; to := q |}) = inl e ->
  let r := make_move env game_id from_pos to_pos current_turn w in
  fst r = Raise (Exn ValueError "Move failed")
  /\ ui (snd r) = (ui w ++ [st_error_msg (move_error_message (classify (str e)))])%list
  /\ (Py.contains "Invalid move" (str e) = true -> classify (str e) = InvalidMove)
  /\ (Py.contains "Invalid move" (str e) = false ->
      Py.contains "Not your turn" (str e) = true -> classify (str e) = NotYourTurn)
  /\ (Py.contains "Invalid move" (str e) = false ->
      Py.contains "Not your turn" (str e) = false -> classify (str e) = Unknown).
Proof.
  intros Hc Hp Hq He. cbv zeta.
  rewrite (make_move_logged_in _ _ _ _ w tok p q) by assumption.
  rewrite He. simpl. unfold classify.
  split; [reflexivity|]. split; [reflexivity|]. split; [|split].
  - intros ->. reflexivity.
  - intros -> ->. reflexivity.
  - intros -> ->. reflexivity.
Qed.

Lemma session_api_client_logged_in w tok :
  session_state w !! "api_client" = Some (VApiClient tok) ->
  session_api_client w = (Return (VApiClient tok), w).
Proof. intros H. unfold session_api_client. run. now rewrite H. Qed.

Lemma create_chess_instance_body_logged_in player opponent color w tok :
  session_state w !! "api_client" = Some (VApiClient tok) ->
  let is_white := String.eqb (Py.upper color) "WHITE" in
  let body :=
    {| parties :=
         {| white := _username_to_party (if is_white then player else opponent);
            black := _username_to_party (if is_white then opponent else player) |} |} in
  let w1 := set_net (net w ++ [EngineCall tok (create_chess body)]) w in
  create_chess_instance_body env player opponent color w =
    match engine env (net w) tok (create_chess body) with
    | inl e => (Raise e, w1)
    | inr r => (Return r, w1)
    end.
Proof.
  intros H. cbv zeta. unfold create_chess_instance_body, bind.
  rewrite (session_api_client_logged_in w tok H). unfold DefaultApi.
  destruct (engine env _ _ _); reflexivity.
Qed.

Lemma create_chess_instance_creates player opponent color w tok :
  session_state w !! "api_client" = Some (VApiClient tok) ->
  creates env w tok player opponent color
    (if String.eqb (Py.upper color) "WHITE" then player else opponent)
    (if String.eqb (Py.upper color) "WHITE" then opponent else player).
Proof.
  intros H.
  set (body :=
    {| parties :=
         {| white := _username_to_party
              (if String.eqb (Py.upper color) "WHITE" then player else opponent);
            black := _username_to_party
              (if String.eqb (Py.upper color) "WHITE" then opponent else player) |} |}).
  assert (forall w0 tok0,
    session_state w0 !! "api_client" = Some (VApiClient tok0) ->
    net (snd (invoke (create_chess_instance_body env player opponent color) w0))
    = (net w0 ++ [EngineCall tok0 (create_chess body)])%list) as Hnet.
  { intros w0 tok0 H0. unfold invoke.
    rewrite (create_chess_instance_body_logged_in _ _ _ (tick w0) tok0) by exact H0.
    destruct (engine env _ _ _); reflexivity. }
  assert (forall w0 tok0 (game : Chess) w1,
    session_state w0 !! "api_client" = Some (VApiClient tok0) ->
    invoke (create_chess_instance_body env player opponent color) w0 = (Return game, w1) ->
    net w1 = (net w0 ++ [EngineCall tok0 (create_chess body)])%list
    /\ engine env (net w0) tok0 (create_chess body) = inr game) as Hgame.
  { intros w0 tok0 game w1 H0. unfold invoke.
    rewrite (create_chess_instance_body_logged_in _ _ _ (tick w0) tok0) by exact H0.
    fold body. change (net (tick w0)) with (net w0).
    destruct (engine env (net w0) tok0 (create_chess body)) as [e|r];
      intros [= <- <-]; auto. }
  assert (entity (white (parties body)) !! "preferred_username"
            = Some [if String.eqb (Py.upper color) "WHITE" then player else opponent]
          /\ entity (black (parties body)) !! "preferred_username"
             = Some [if String.eqb (Py.upper color) "WHITE" then opponent else player]
          /\ entity (white (parties body)) !! "iss" = Some [auth_url auth_config]
          /\ entity (black (parties body)) !! "iss" = Some [auth_url auth_config])
    as (Cw & Cb & Iw & Ib).
  { unfold body, _username_to_party, _create_party. simpl.
    repeat split; try apply lookup_insert_eq.
    all: rewrite lookup_insert_ne by discriminate; apply lookup_insert_eq. }
  unfold creates. cbv zeta. exists body.
  assert (exists rest,
    net (snd (create_chess_instance env player opponent color w))
      = (net w ++ EngineCall tok (create_chess body) :: rest)%list
    /\ (forall tok' body', In (EngineCall tok' (create_chess body')) rest -> body' = body))
    as (rest & Hrest & Hall).
  { unfold create_chess_instance.
    destruct (with_token_refresh_net env
                (create_chess_instance_body env player opponent color) w)
      as [-> | [(e & w1 & ve & w2 & Hf & E & ->) | (e & w1 & w2 & Hf & Hs & E & ->)]].
    - exists []. rewrite (Hnet w tok H). split; [reflexivity|]. intros ? ? [].
    - pose proof (Hnet w tok H) as Hn. rewrite Hf in Hn. simpl in Hn.
      destruct (ensure_valid_token_inv _ _ _ _ E)
        as (_ & _ & [(msg & _ & _ & [Hn2 | (rt & Hn2)]) | ([=] & _)]).
      + exists []. rewrite Hn2, Hn. split; [reflexivity|]. intros ? ? [].
      + exists [TokenPost (refresh_data rt)]. rewrite Hn2, Hn.
        rewrite <- app_assoc. split; [reflexivity|].
        intros ? ? [[=] | []].
    - pose proof (Hnet w tok H) as Hn. rewrite Hf in Hn. simpl in Hn.
      destruct (ensure_valid_token_inv _ _ _ _ E)
        as (_ & _ & [(msg & [=] & _) | (_ & Hp & (rt & Hn2))]).
      destruct Hp as (_ & _ & a & _ & _ & _ & _ & _ & _ & _ & Hc).
      exists [TokenPost (refresh_data rt); EngineCall a (create_chess body)].
      rewrite (Hnet w2 a Hc), Hn2, Hn. rewrite <- !app_assoc.
      split; [reflexivity|].
      intros ? ? [[=] | [[= _ <-] | []]]. reflexivity. }
  exists rest. split; [exact Hrest|]. split; [exact Hall|].
  do 4 (split; [assumption|]).
  assert (forall game : Chess,
    fst (create_chess_instance env player opponent color w) = Return game ->
    exists history bearer,
      net (snd (create_chess_instance env player opponent color w))
        = (history ++ [EngineCall bearer (create_chess body)])%list
      /\ engine env history bearer (create_chess body) = inr game) as Hanswer.
  { intros game Hr. unfold create_chess_instance in *.
    destruct (with_token_refresh_returns env _ w game Hr)
      as [(w1 & Hf & ->) | (e & w1 & w2 & w3 & Hf & Hs & E & Hf2 & ->)].
    - exists (net w), tok. exact (Hgame w tok game w1 H Hf).
    - destruct (ensure_valid_token_inv _ _ _ _ E)
        as (_ & _ & [(msg & [=] & _) | (_ & Hp & _)]).
      destruct Hp as (_ & _ & a & _ & _ & _ & _ & _ & _ & _ & Hc).
      exists (net w2), a. exact (Hgame w2 a game w3 Hc Hf2). }
  split.
  - intros game He. unfold create_chess_instance.
    rewrite (with_token_refresh_first_return env _ w game
               (set_net (net w ++ [EngineCall tok (create_chess body)]) (tick w))).
    + reflexivity.
    + unfold invoke.
      rewrite (create_chess_instance_body_logged_in _ _ _ (tick w) tok) by exact H.
      fold body. change (net (tick w)) with (net w). now rewrite He.
  - intros game Hr. split; [exact (Hanswer game Hr)|].
    intros Hparties.
    destruct (Hanswer game Hr) as (history & bearer & _ & He).
    rewrite (Hparties history bearer game He). auto.
Qed.

(** C5: with a client in the session,
    [create_chess_instance("alice", "bob", "white")] requests a game whose
    white party carries [preferred_username = ["alice"]] and whose black
    party carries [["bob"]]; with "black" the two are swapped; in general
    the player is white exactly when the upper-cased color is "WHITE";
    both parties carry the configured issuer in [iss].  The game the
    call returns is the engine's answer to that request: it is returned
    when the engine accepts the first request, a game returned is always
    the answer to the last creation request sent, and it carries these
    parties whenever the engine creates games with the parties
    requested. *)
Theorem create_chess_instance_parties tok w :
  session_state w !! "api_client" = Some (VApiClient tok) ->
  creates env w tok "alice" "bob" "white" "alice" "bob"
  /\ creates env w tok "alice" "bob" "black" "bob" "alice"
  /\ forall player opponent color,
      creates env w tok player opponent color
        (if String.eqb (Py.upper color) "WHITE" then player else opponent)
        (if String.eqb (Py.upper color) "WHITE" then opponent else player).
Proof.
  intros H. split; [|split].
  - apply (create_chess_instance_creates "alice" "bob" "white" w tok H).
  - apply (create_chess_instance_creates "alice" "bob" "black" w tok H).
  - intros. now apply create_chess_instance_creates.
Qed.

(** *** The move form *)

Lemma in_files c :
  Py.contains (Py.char c) "abcdefgh"
  = (Py.ord "a" <=? Py.ord c) && (Py.ord c <=? Py.ord "h").
Proof. destruct c as [[] [] [] [] [] [] [] []]; reflexivity. Qed.

Lemma in_ranks c :
  Py.contains (Py.char c) "12345678"
  = (Py.ord "1" <=? Py.ord c) && (Py.ord c <=? Py.ord "8").
Proof. destruct c as [[] [] [] [] [] [] [] []]; reflexivity. Qed.

Lemma valid_square_two c d :
  valid_square (String c (String d EmptyString))
  = Py.contains (Py.char c) "abcdefgh" && Py.contains (Py.char d) "12345678".
Proof. rewrite in_files, in_ranks. simpl. now rewrite !andb_assoc. Qed.

Lemma len_is_2 s :
  (Py.len s =? 2) =
  match s with String _ (String _ EmptyString) => true | _ => false end.
Proof.
  unfold Py.len. destruct s as [|? [|? [|? ?]]]; cbn [String.length];
    try reflexivity.
  apply Z.eqb_neq. lia.
Qed.

(** The validation writes nothing but messages; it yields [True] for two
    non-empty squares only when both are valid, and it has displayed a
    format message whenever one of two non-empty squares is not. *)
Lemma basic_validation_inv is_white from_square to_square w r w' :
  basic_validation is_white from_square to_square w = (r, w') ->
  net w' = net w /\ invocations w' = invocations w
  /\ (Py.nonempty from_square && Py.nonempty to_square = true ->
      (r = Return true ->
       valid_square from_square && valid_square to_square = true)
      /\ (valid_square from_square && valid_square to_square = false ->
          exists msg rest,
            ui w' = (ui w ++ st_error_msg msg :: rest)%list /\ format_error msg)).
Proof.
  unfold basic_validation, format_error.
  destruct (Py.nonempty from_square && Py.nonempty to_square) eqn:Hne.
  2: { intros [= <- <-]. repeat split; discriminate. }
  rewrite !len_is_2.
  destruct from_square as [|c1 [|c2 [|c3 f]]]; try discriminate Hne;
    destruct to_square as [|d1 [|d2 [|d3 t]]]; try discriminate Hne.
  all: rewrite ?valid_square_two.
  all: unfold index_in, and_then, index, st_error, st_info; run.
  all: repeat match goal with
         | |- context [Py.contains ?a ?b] => destruct (Py.contains a b)
         end; simpl.
  all: destruct is_white; simpl.
  all: intros [= <- <-]; simpl.
  all: repeat split; try discriminate; try reflexivity.
  all: intros _; rewrite <- ?app_assoc; simpl; eauto 8.
Qed.

(** C7 (amended): the validation is the move form's, not [make_move]'s.
    When one of the two squares typed into the form is malformed (wrong
    length, file outside a..h, rank outside 1..8), the form does not call
    [make_move] and no network call is made; and when both fields are
    filled in, a format message has been displayed. *)
Theorem move_form_blocks_malformed_squares
    game_id is_white current_turn from_square to_square submit w :
  valid_square from_square && valid_square to_square = false ->
  let r := move_form env game_id is_white current_turn
             from_square to_square submit w in
  net (snd r) = net w
  /\ invocations (snd r) = invocations w
  /\ (Py.nonempty from_square && Py.nonempty to_square = true ->
      exists msg rest,
        ui (snd r) = (ui w ++ st_error_msg msg :: rest)%list /\ format_error msg).
Proof.
  intros Hbad. cbv zeta. unfold move_form, bind.
  destruct (basic_validation is_white from_square to_square w)
    as [[v|e|] w1] eqn:E.
  all: apply basic_validation_inv in E; destruct E as (Hn & Hi & Hv).
  2, 3: simpl; repeat split; auto; intros Hne; now apply Hv.
  assert (submit && v && Py.nonempty from_square && Py.nonempty to_square = false)
    as ->.
  { destruct (Py.nonempty from_square && Py.nonempty to_square) eqn:Hne.
    - destruct (Hv eq_refl) as [Hv1 _]. destruct v.
      + rewrite Hv1 in Hbad by reflexivity. discriminate.
      + now rewrite andb_false_r.
    - rewrite <- andb_assoc, Hne. apply andb_false_r. }
  simpl. repeat split; auto. intros Hne. now apply Hv.
Qed.

(** *** Operations on a session without a client *)

Lemma session_api_client_logged_out w :
  truthy (default VNone (session_state w !! "api_client")) = false ->
  session_api_client w = (Raise (Exn ValueError "Please login first"), w).
Proof. intros H. unfold session_api_client. run. now rewrite H. Qed.

(** The five reading and creating operations fail with "Please login
    first" before any network call, and the wrapper lets the error
    through without renewing. *)
Lemma please_login_first w :
  truthy (default VNone (session_state w !! "api_client")) = false ->
  let failed {A} : outcome A * World :=
    (Raise (Exn ValueError "Please login first"), tick w) in
  (forall player opponent color,
      create_chess_instance env player opponent color w = failed)
  /\ get_chess_games env w = failed
  /\ (forall game_id, get_game env game_id w = failed)
  /\ (forall game_id, get_board env game_id w = failed)
  /\ (forall game_id, get_current_turn env game_id w = failed).
Proof.
  intros H. cbv zeta.
  assert (forall A (k : value -> M A),
    with_token_refresh env (let* c := session_api_client in k c) w
    = (Raise (Exn ValueError "Please login first"), tick w)) as G.
  { intros A k.
    apply (with_token_refresh_plain_error env _ w); [|reflexivity].
    unfold invoke, bind. now rewrite session_api_client_logged_out. }
  repeat split; intros; apply G.
Qed.

(** [make_move] on such a session: its own handler turns "Please login
    first" into the message of the [Unknown] category and the fixed
    error. *)
Lemma make_move_logged_out game_id from_pos to_pos current_turn w :
  truthy (default VNone (session_state w !! "api_client")) = false ->
  make_move env game_id from_pos to_pos current_turn w
  = (Raise (Exn ValueError "Move failed"),
     set_ui (ui w ++ [st_error_msg "Move failed. Please try again."]) (tick w)).
Proof.
  intros H. rewrite make_move_unwrapped. unfold invoke, make_move_body.
  unfold try_except, bind.
  rewrite session_api_client_logged_out by exact H. reflexivity.
Qed.

(** *** The operations only read the session *)

Lemma bind_read_only {A B} (m : M A) (k : A -> M B) :
  read_only m -> (forall a, read_only (k a)) -> read_only (bind m k).
Proof.
  intros Hm Hk w. unfold bind. specialize (Hm w).
  destruct (m w) as [[a|e|] w1]; simpl in *; auto.
  destruct (Hk a w1) as [-> ->]. exact Hm.
Qed.

Lemma ret_read_only {A} (a : A) : read_only (ret a).
Proof. intros w. simpl. auto. Qed.

Lemma session_api_client_read_only : read_only session_api_client.
Proof.
  intros w. unfold session_api_client. run.
  destruct (truthy _); simpl; auto.
Qed.

Lemma DefaultApi_read_only client c : read_only (DefaultApi env client c).
Proof.
  intros w. destruct (DefaultApi env client c w) as [r w1] eqn:E.
  apply DefaultApi_inv in E. simpl. tauto.
Qed.

Lemma make_move_body_read_only game_id from_pos to_pos current_turn :
  read_only (make_move_body env game_id from_pos to_pos current_turn).
Proof.
  intros w.
  destruct (make_move_body env game_id from_pos to_pos current_turn w)
    as [r w1] eqn:E.
  apply make_move_body_outcome in E. simpl. tauto.
Qed.

Lemma operations_read_only :
  (forall player opponent color,
      read_only (create_chess_instance_body env player opponent color))
  /\ read_only (get_chess_games_body env)
  /\ (forall game_id, read_only (get_game_body env game_id))
  /\ (forall game_id, read_only (get_board_body env game_id))
  /\ (forall game_id, read_only (get_current_turn_body env game_id))
  /\ (forall game_id from_pos to_pos current_turn,
        read_only (make_move_body env game_id from_pos to_pos current_turn)).
Proof.
  split; [|split; [|split; [|split; [|split]]]].
  1: intros player opponent color; unfold create_chess_instance_body.
  2: unfold get_chess_games_body.
  3: intros game_id; unfold get_game_body.
  4: intros game_id; unfold get_board_body.
  5: intros game_id; unfold get_current_turn_body.
  1-5: repeat first [ apply session_api_client_read_only
                    | match goal with
                      | |- read_only (DefaultApi env ?v ?c) =>
                          exact (DefaultApi_read_only v c)
                      end
                    | apply ret_read_only
                    | apply bind_read_only; [|intros ?; cbv beta zeta] ].
  - intros. apply make_move_body_read_only.
Qed.

End Operations.

(** ** Runs on the concrete collaborators *)

Module Runs.

Import Scenario.

Lemma get_board_body_read_only env game_id :
  read_only (get_board_body env game_id).
Proof. apply operations_read_only. Qed.

(** A server error without token signal on [get_board]: the error comes
    back as it is. *)
Lemma with_token_refresh_no_signal_witness :
  let env := rejecting "(500) Reason: Internal Server Error" in
  let func := get_board_body env "game-1" in
  let e := Exn OtherException "(500) Reason: Internal Server Error" in
  let w1 := snd (invoke func logged_in) in
  with_token_refresh env func logged_in = (Raise e, w1)
  /\ net (snd (with_token_refresh env func logged_in)) = net w1.
Proof.
  intros env func e w1.
  apply (with_token_refresh_no_signal env func logged_in e w1);
    reflexivity.
Defined.

(** The token has expired and the identity provider is down. *)
Lemma with_token_refresh_renewal_fails_witness :
  let env := unrecoverable in
  let func := get_board_body env "game-1" in
  let w1 := snd (invoke func logged_in) in
  exists msg w',
    with_token_refresh env func logged_in = (Rerun, w')
    /\ session_state w' = ∅
    /\ ui w' = (ui w1 ++ [st_error_msg msg])%list
    /\ Py.contains "Please login again." msg = true
    /\ invocations w' = S (invocations logged_in)
    /\ (net w' = net w1
        \/ exists rt : value, net w' = (net w1 ++ [TokenPost (refresh_data rt)])%list).
Proof.
  intros env func w1.
  apply (with_token_refresh_renewal_fails env func logged_in unauthorized w1).
  - apply get_board_body_read_only.
  - reflexivity.
  - reflexivity.
  - vm_compute. discriminate.
Defined.

(** The token has expired and is renewed: [get_board] is called twice and
    the second answer is returned. *)
Lemma with_token_refresh_renewal_succeeds_witness :
  let env := expired in
  let func := get_board_body env "game-1" in
  let w1 := snd (invoke func logged_in) in
  let w2 := snd (ensure_valid_token env w1) in
  invocations (snd (with_token_refresh env func logged_in)) = 2%nat
  /\ with_token_refresh env func logged_in = invoke func w2
  /\ fst (invoke func w2) = Return []
  /\ holds_renewed_pair env w1 (snd (with_token_refresh env func logged_in)).
Proof.
  intros env func w1 w2.
  assert (invoke func logged_in = (Raise unauthorized, w1)) as H1 by reflexivity.
  assert (token_signal unauthorized = true) as H2 by reflexivity.
  assert (ensure_valid_token env w1 = (Return tt, w2)) as H3 by reflexivity.
  assert (fst (invoke func w2) = Return []) as E by reflexivity.
  pose proof (with_token_refresh_renewal_succeeds env func logged_in unauthorized
                w1 w2 (get_board_body_read_only env "game-1") H1 H2 H3)
    as [Hcount Hretry].
  destruct Hretry as [Hsame Hpair].
  { intros ve H. pose proof (eq_trans (eq_sym E) H) as H'. discriminate H'. }
  split; [exact Hcount|]. split; [exact Hsame|]. split; [exact E|exact Hpair].
Defined.

(** C1, as stated, fails: the token of alice has expired, the renewal
    succeeds, and the repeated [get_chess_games] fails with a
    [ValueError].  The wrapper does not return that failure: it displays
    its text, clears the session (renewed pair included) and stops the
    run. *)
Lemma retried_ValueError_clears_session :
  let env := expired_then_invalid_response in
  let func := get_chess_games_body env in
  let w1 := snd (invoke func logged_in) in
  let w2 := snd (ensure_valid_token env w1) in
  fst (invoke func logged_in) = Raise unauthorized
  /\ token_signal unauthorized = true
  /\ fst (ensure_valid_token env w1) = Return tt
  /\ fst (invoke func w2) = Raise (Exn ValueError "1 validation error for ChessList")
  /\ fst (get_chess_games env logged_in) = Rerun
  /\ session_state (snd (get_chess_games env logged_in)) = ∅
  /\ ui (snd (get_chess_games env logged_in))
     = [st_error_msg "1 validation error for ChessList"]
  /\ invocations (snd (get_chess_games env logged_in)) = 2%nat.
Proof. repeat split; vm_compute; reflexivity. Qed.

(** e2-e4 on the session of alice *)
Lemma make_move_sends_translated_move_witness :
  let sent current_turn from_pos to_pos :=
    net (snd (make_move accepting "game-1" from_pos to_pos current_turn logged_in)) in
  sent "WHITE" "e2" "e4" = [EngineCall "t0" (chess_make_white_move "game-1" e2e4)]
  /\ sent "BLACK" "e2" "e4" = [EngineCall "t0" (chess_make_black_move "game-1" e2e4)].
Proof.
  intros sent.
  destruct (make_move_sends_translated_move accepting "game-1" "t0" logged_in eq_refl)
    as (Hw & Hb & _).
  split; [exact Hw | exact Hb].
Defined.

(** alice creates a game against bob, as white and as black. *)
Lemma create_chess_instance_parties_witness :
  creates accepting logged_in "t0" "alice" "bob" "white" "alice" "bob"
  /\ creates accepting logged_in "t0" "alice" "bob" "black" "bob" "alice".
Proof.
  destruct (create_chess_instance_parties accepting "t0" logged_in eq_refl)
    as (Hw & Hb & _).
  split; [exact Hw | exact Hb].
Defined.

(** With an engine that creates the game requested, the game alice gets
    back has her as white and bob as black. *)
Lemma create_chess_instance_returns_created_game :
  exists game,
    fst (create_chess_instance accepting "alice" "bob" "white" logged_in) = Return game
    /\ chess_id game = "game-1"
    /\ entity (white (chess_parties game)) !! "preferred_username" = Some ["alice"]
    /\ entity (black (chess_parties game)) !! "preferred_username" = Some ["bob"].
Proof. eexists. repeat split; vm_compute; reflexivity. Qed.

(** The engine answers "Not your turn". *)
Lemma make_move_classifies_failure_witness :
  let r := make_move (rejecting "Not your turn") "game-1" "e7" "e5" "WHITE" logged_in in
  fst r = Raise (Exn ValueError "Move failed")
  /\ ui (snd r) = [st_error_msg "Not your turn!"].
Proof.
  intros r.
  destruct (make_move_classifies_failure (rejecting "Not your turn")
              "game-1" "e7" "e5" "WHITE" logged_in "t0"
              {| x := 4; y := 6 |} {| x := 4; y := 4 |}
              (Exn OtherException "Not your turn")
              eq_refl eq_refl eq_refl eq_refl)
    as (Hr & Hu & _).
  split; [exact Hr | exact Hu].
Defined.

(** C6, as stated, fails: an error text that contains "Not your turn"
    (and "Invalid move" before it) is displayed as an invalid move. *)
Lemma not_your_turn_displayed_as_invalid_move :
  let text := "Invalid move: Not your turn" in
  let r := make_move (rejecting text) "game-1" "e7" "e5" "WHITE" logged_in in
  Py.contains "Not your turn" text = true
  /\ classify text = InvalidMove
  /\ ui (snd r) = [st_error_msg "Invalid move! Please check the rules of chess."]
  /\ fst r = Raise (Exn ValueError "Move failed").
Proof. repeat split; reflexivity. Qed.

(** "i9" typed into the form *)
Lemma move_form_blocks_malformed_squares_witness :
  let r := move_form accepting "game-1" true "WHITE" "i9" "e4" true logged_in in
  net (snd r) = []
  /\ invocations (snd r) = 0%nat
  /\ exists msg rest,
      ui (snd r) = (st_error_msg msg :: rest)%list /\ format_error msg.
Proof.
  intros r.
  destruct (move_form_blocks_malformed_squares accepting "game-1" true "WHITE"
              "i9" "e4" true logged_in eq_refl)
    as (Hn & Hi & Hm).
  split; [exact Hn|]. split; [exact Hi|]. exact (Hm eq_refl).
Defined.

(** C7, as stated, fails: [make_move] converts "i9" and "e22" without
    complaint and the engine receives the request. *)
Lemma make_move_sends_malformed_squares :
  valid_square "i9" = false
  /\ make_move accepting "game-1" "i9" "e4" "WHITE" logged_in
     = (Return tt,
        set_net [EngineCall "t0"
                   (chess_make_white_move "game-1"
                      {| var_from := {| x := 8; y := 8 |};
                         to := {| x := 4; y := 3 |} |})]
          (tick logged_in))
  /\ valid_square "e22" = false
  /\ make_move accepting "game-1" "e22" "e4" "WHITE" logged_in
     = (Return tt,
        set_net [EngineCall "t0" (chess_make_white_move "game-1" e2e4)]
          (tick logged_in)).
Proof. repeat split; reflexivity. Qed.

(** The square e2 and the position (4, 1) *)
Lemma parse_square_to_square_round_trip_witness :
  parse_square (to_square {| x := 4; y := 1 |}) = inr {| x := 4; y := 1 |}
  /\ exists p, parse_square "e2" = inr p /\ valid_position p /\ to_square p = "e2".
Proof.
  split.
  - apply (proj1 Coordinates.parse_square_to_square_round_trip).
    unfold valid_position. simpl. lia.
  - apply (proj2 Coordinates.parse_square_to_square_round_trip).
    reflexivity.
Defined.

(** C3: the access token of alice has expired and the identity provider
    would renew it.  [make_move] makes one engine call, reports "Move
    failed" and stops: no request goes to the token endpoint and nothing
    is retried, although the engine's error carries the token signal.
    [get_board], on the same session and collaborators, renews and
    repeats its call. *)
Theorem make_move_does_not_renew_expired_token :
  let r := make_move expired "game-1" "e2" "e4" "WHITE" logged_in in
  token_signal unauthorized = true
  /\ fst r = Raise (Exn ValueError "Move failed")
  /\ net (snd r) = [EngineCall "t0" (chess_make_white_move "game-1" e2e4)]
  /\ invocations (snd r) = 1%nat
  /\ session_state (snd r) = session_state logged_in
  /\ fst (get_board expired "game-1" logged_in) = Return []
  /\ invocations (snd (get_board expired "game-1" logged_in)) = 2%nat
  /\ net (snd (get_board expired "game-1" logged_in))
     = [EngineCall "t0" (chess_get_board "game-1");
        TokenPost (refresh_data (VStr "r0"));
        EngineCall "t1" (chess_get_board "game-1")].
Proof. repeat split; reflexivity. Qed.

(** C10: on the session without a client, [make_move] does not fail with
    "Please login first": its handler displays "Move failed. Please try
    again." and raises [ValueError("Move failed")].  No network call is
    made.  [get_board], like the other four operations, fails with
    "Please login first". *)
Theorem make_move_without_client_reports_move_failed :
  make_move accepting "game-1" "e2" "e4" "WHITE" logged_out
  = (Raise (Exn ValueError "Move failed"),
     set_ui [st_error_msg "Move failed. Please try again."] (tick logged_out))
  /\ get_board accepting "game-1" logged_out
     = (Raise (Exn ValueError "Please login first"), tick logged_out).
Proof. split; reflexivity. Qed.

End Runs.

(** ** The identity client and the session, further properties *)

Section Identity.

Variable env : Env.

Ltac run :=
  unfold bind, ret, raise, lift, try_except, any_Exception, session_get in *;
  simpl in *.

Lemma has_key_lookup {V} key (d : gmap string V) :
  has_key key d = match d !! key with Some _ => true | None => false end.
Proof.
  unfold has_key. destruct (d !! key) eqn:E.
  - apply bool_decide_eq_true_2. eauto.
  - apply bool_decide_eq_false_2. intros [? ?]. discriminate.
Qed.

(** X1: each of the two token exchanges makes exactly one request and
    changes nothing else.  It returns the decoded answer only when the
    answer has both token fields; every failure comes out as a
    [ValueError] under the exchange's own prefix, and an answer that
    lacks a field comes out under both the prefix and "Invalid token
    response: ". *)
Theorem token_exchange_contract username password rt w :
  let contract (prefix : string) (data : gmap string value)
               (r : outcome (gmap string string) * World) :=
    snd r = set_net (net w ++ [TokenPost data]) w
    /\ match token_endpoint env (net w) data with
       | HttpError str_e => fst r = Raise (Exn ValueError (prefix +:+ str_e))
       | HttpJson token_data =>
           if has_key "access_token" token_data
              && has_key "refresh_token" token_data
           then fst r = Return token_data
           else fst r = Raise (Exn ValueError
                  (prefix +:+ ("Invalid token response: "
                               +:+ dict_repr env token_data)))
       end in
  contract "Failed to fetch access token: " (password_data username password)
    (fetch_access_token env username password w)
  /\ contract "Failed to refresh token: " (refresh_data rt)
       (refresh_token env rt w).
Proof.
  cbv zeta. unfold fetch_access_token, refresh_token, requests_post. run.
  split.
  - destruct (token_endpoint env (net w) (password_data username password))
      as [s|d]; simpl; [auto|].
    destruct (has_key "access_token" d), (has_key "refresh_token" d);
      simpl; auto.
  - destruct (token_endpoint env (net w) (refresh_data rt)) as [s|d];
      simpl; [auto|].
    destruct (has_key "access_token" d), (has_key "refresh_token" d);
      simpl; auto.
Qed.

(** The world after a renewal that issued the pair [(a, b)] for the
    stored refresh token [rt] *)
Lemma ensure_valid_token_eq w :
  let rt := default VNone (session_state w !! "refresh_token") in
  let w1 := set_net (net w ++ [TokenPost (refresh_data rt)]) w in
  let expired : outcome unit * World :=
    (Raise (Exn ValueError "Session expired. Please login again."), w1) in
  ensure_valid_token env w =
    if truthy rt then
      match token_endpoint env (net w) (refresh_data rt) with
      | HttpError _ => expired
      | HttpJson token_data =>
          match token_data !! "access_token", token_data !! "refresh_token" with
          | Some a, Some b =>
              (Return tt,
               set_session
                 (<["refresh_token" := VStr b]>
                  (<["auth_token" := VStr a]>
                   (<["api_client" := VApiClient a]> (session_state w))))
                 (set_app {| api_client := VApiClient a;
                             configuration_access_token := VStr a |} w1))
          | _, _ => expired
          end
      end
    else (Raise (Exn ValueError
                   "No refresh token available. Please login again."), w).
Proof.
  cbv zeta. unfold ensure_valid_token. run.
  destruct (truthy (default VNone (session_state w !! "refresh_token")));
    simpl; [|reflexivity].
  unfold refresh_token, requests_post. run.
  destruct (token_endpoint env (net w) _) as [s|d]; simpl; [reflexivity|].
  rewrite !has_key_lookup. unfold item.
  destruct (d !! "access_token") as [a|] eqn:Ea; simpl;
    destruct (d !! "refresh_token") as [b|] eqn:Eb; simpl;
    rewrite ?Ea, ?Eb; run; rewrite ?Eb; reflexivity.
Qed.

(** X2: a renewal that fails leaves the session, the application object
    and the display exactly as they were.  Without a refresh token in the
    session (absent, [None] or empty) it fails with "No refresh token
    available. Please login again." and makes no request; otherwise it has
    made one request and fails with "Session expired. Please login again.",
    whatever the provider's error was. *)
Theorem ensure_valid_token_failure w r w' :
  ensure_valid_token env w = (r, w') ->
  r <> Return tt ->
  session_state w' = session_state w /\ app w' = app w /\ ui w' = ui w
  /\ ((r = Raise (Exn ValueError "No refresh token available. Please login again.")
       /\ truthy (session_value "refresh_token" w) = false
       /\ net w' = net w)
      \/ (r = Raise (Exn ValueError "Session expired. Please login again.")
          /\ truthy (session_value "refresh_token" w) = true
          /\ net w' = (net w ++ [TokenPost
                         (refresh_data (session_value "refresh_token" w))])%list)).
Proof.
  rewrite ensure_valid_token_eq. unfold session_value.
  destruct (truthy (default VNone (session_state w !! "refresh_token"))).
  2: { intros [= <- <-] _. repeat split. left. auto. }
  destruct (token_endpoint env (net w) _) as [s|d].
  { intros [= <- <-] _. repeat split. right. auto. }
  destruct (d !! "access_token") as [a|], (d !! "refresh_token") as [b|].
  1: intros [= <- <-] H; now destruct H.
  all: intros [= <- <-] _; repeat split; right; auto.
Qed.

(** X3: a renewal that succeeds has made one request, carrying the stored
    refresh token, and writes exactly three session keys: [api_client],
    [auth_token] and [refresh_token] hold the issued pair, the client
    being built on the issued access token; every other key ([username],
    [active_game_id], ...) keeps its value. *)
Theorem ensure_valid_token_success w w' :
  ensure_valid_token env w = (Return tt, w') ->
  exists token_data a b,
    token_endpoint env (net w) (refresh_data (session_value "refresh_token" w))
      = HttpJson token_data
    /\ token_data !! "access_token" = Some a
    /\ token_data !! "refresh_token" = Some b
    /\ session_state w' !! "api_client" = Some (VApiClient a)
    /\ session_state w' !! "auth_token" = Some (VStr a)
    /\ session_state w' !! "refresh_token" = Some (VStr b)
    /\ (forall key, renewal_key key = false ->
                    session_state w' !! key = session_state w !! key)
    /\ app w' = {| api_client := VApiClient a;
                   configuration_access_token := VStr a |}
    /\ net w' = (net w ++ [TokenPost
                   (refresh_data (session_value "refresh_token" w))])%list
    /\ ui w' = ui w.
Proof.
  rewrite ensure_valid_token_eq. unfold session_value.
  destruct (truthy (default VNone (session_state w !! "refresh_token")));
    [|discriminate].
  destruct (token_endpoint env (net w) _) as [s|d]; [discriminate|].
  destruct (d !! "access_token") as [a|] eqn:Ea; [|discriminate].
  destruct (d !! "refresh_token") as [b|] eqn:Eb; [|discriminate].
  intros [= <-]. exists d, a, b. simpl.
  repeat split; auto.
  - rewrite !lookup_insert_ne by discriminate. apply lookup_insert_eq.
  - rewrite lookup_insert_ne by discriminate. apply lookup_insert_eq.
  - apply lookup_insert_eq.
  - intros key Hk. unfold renewal_key in Hk.
    apply orb_false_elim in Hk as [Hk H3]. apply orb_false_elim in Hk as [H1 H2].
    apply String.eqb_neq in H1, H2, H3.
    rewrite !lookup_insert_ne by congruence. reflexivity.
Qed.

(** X4: the login form.  With an empty user name or password it only
    displays a message: no request is made.  Otherwise one password-grant
    request is made; when the answer has both tokens the session receives
    the client, the user name (twice) and the pair, and the run restarts;
    when it fails the session is left untouched, the form returns
    normally and the message displayed carries the text of the failure. *)
Theorem login_form_outcome username password w :
  let r := login_form env username password true w in
  let data := password_data username password in
  if Py.nonempty username && Py.nonempty password then
    net (snd r) = (net w ++ [TokenPost data])%list
    /\ match token_endpoint env (net w) data with
       | HttpError str_e =>
           fst r = Return tt
           /\ session_state (snd r) = session_state w
           /\ ui (snd r)
              = (ui w ++ [st_error_msg
                   ("Login failed: "
                    +:+ ("Failed to fetch access token: " +:+ str_e))])%list
       | HttpJson token_data =>
           match token_data !! "access_token", token_data !! "refresh_token" with
           | Some a, Some b =>
               fst r = Rerun
               /\ session_state (snd r)
                  = <["refresh_token" := VStr b]>
                    (<["auth_token" := VStr a]>
                     (<["stored_username" := VStr username]>
                      (<["username" := VStr username]>
                       (<["api_client" := VApiClient a]> (session_state w)))))
               /\ ui (snd r) = ui w
           | _, _ =>
               fst r = Return tt
               /\ session_state (snd r) = session_state w
               /\ ui (snd r)
                  = (ui w ++ [st_error_msg
                       ("Login failed: "
                        +:+ ("Failed to fetch access token: "
                             +:+ ("Invalid token response: "
                                  +:+ dict_repr env token_data)))])%list
           end
       end
  else
    r = (Return tt,
         set_ui (ui w ++ [st_error_msg "Please enter both username and password"]) w).
Proof.
  cbv zeta. unfold login_form.
  destruct (Py.nonempty username && Py.nonempty password); [|reflexivity].
  unfold login, fetch_access_token, requests_post, st_error. run.
  destruct (token_endpoint env (net w) _) as [s|d]; simpl; [auto|].
  rewrite !has_key_lookup. unfold item.
  destruct (d !! "access_token") as [a|] eqn:Ea; simpl;
    destruct (d !! "refresh_token") as [b|] eqn:Eb; simpl;
    rewrite ?Ea, ?Eb; run; rewrite ?Eb; simpl; auto.
Qed.

End Identity.

(** ** The session handling of [main] *)

Section Session.

Variable env : Env.

Ltac run :=
  unfold bind, ret, raise, lift, try_except, any_Exception, session_get in *;
  simpl in *.

Lemma set_session_id w : set_session (session_state w) w = w.
Proof. now destruct w. Qed.

Lemma init_key_eq key v w :
  init_key key v w = (Return tt, set_session (setdefault key v (session_state w)) w).
Proof.
  unfold init_key, session_set, setdefault. rewrite has_key_lookup.
  destruct (session_state w !! key); [|reflexivity].
  now rewrite set_session_id.
Qed.

Lemma setdefault_lookup key v (m : gmap string value) key' :
  setdefault key v m !! key'
  = if String.eqb key' key then Some (default v (m !! key)) else m !! key'.
Proof.
  unfold setdefault. destruct (String.eqb key' key) eqn:E.
  - apply String.eqb_eq in E. subst key'.
    destruct (m !! key) eqn:Em; simpl; [exact Em | apply lookup_insert_eq].
  - apply String.eqb_neq in E.
    destruct (m !! key); [reflexivity|]. now apply lookup_insert_ne.
Qed.

(** The session after the initialisation, key by key *)
Lemma init_session_lookup w key :
  session_state (snd (init_session w)) !! key = initialised (session_state w) key.
Proof.
  unfold init_session, bind. rewrite !init_key_eq. simpl.
  rewrite !setdefault_lookup. unfold initialised, initial_values. simpl.
  repeat match goal with
         | |- context [String.eqb key ?k] =>
             destruct (String.eqb_spec key k) as [->|?]; [simpl; reflexivity|]
         end.
  reflexivity.
Qed.

Lemma init_session_frame w :
  fst (init_session w) = Return tt
  /\ ui (snd (init_session w)) = ui w
  /\ net (snd (init_session w)) = net w
  /\ app (snd (init_session w)) = app w
  /\ invocations (snd (init_session w)) = invocations w.
Proof.
  unfold init_session, bind. rewrite !init_key_eq. simpl. auto.
Qed.

(** X5: the initialisation of [main] returns normally and touches only
    the session: each of the seven keys holds the value it already had,
    or else its initial value ([False] for [show_create_form], [None] for
    the others); no other key changes; initialising twice is initialising
    once. *)
Theorem init_session_initialises w :
  let w' := snd (init_session w) in
  fst (init_session w) = Return tt
  /\ ui w' = ui w /\ net w' = net w
  /\ (forall key v, In (key, v) initial_values ->
        session_state w' !! key = Some (default v (session_state w !! key)))
  /\ (forall key, assoc key initial_values = None ->
        session_state w' !! key = session_state w !! key)
  /\ session_state (snd (init_session w')) = session_state w'.
Proof.
  cbv zeta. destruct (init_session_frame w) as (Hr & Hu & Hn & _).
  repeat split; auto.
  - intros key v Hin. rewrite init_session_lookup. unfold initial_values in Hin.
    simpl in Hin.
    repeat (destruct Hin as [[= <- <-]|Hin]; [reflexivity|]). destruct Hin.
  - intros key Hk. rewrite init_session_lookup. unfold initialised.
    now rewrite Hk.
  - apply map_eq. intros key. rewrite !init_session_lookup.
    unfold initialised at 1. rewrite init_session_lookup. unfold initialised.
    destruct (assoc key initial_values); reflexivity.
Qed.

Lemma ensure_valid_token_cases w :
  (truthy (session_value "refresh_token" w) = false
   /\ ensure_valid_token env w
      = (Raise (Exn ValueError "No refresh token available. Please login again."), w))
  \/ (truthy (session_value "refresh_token" w) = true
      /\ ensure_valid_token env w
         = (Raise (Exn ValueError "Session expired. Please login again."),
            set_net (net w ++ [TokenPost
                      (refresh_data (session_value "refresh_token" w))]) w))
  \/ (truthy (session_value "refresh_token" w) = true
      /\ exists a b, ensure_valid_token env w = (Return tt, renewed a b w)).
Proof.
  rewrite (ensure_valid_token_eq env w). unfold session_value, renewed.
  destruct (truthy (default VNone (session_state w !! "refresh_token"))); auto.
  right. destruct (token_endpoint env (net w) _) as [s|d]; auto.
  destruct (d !! "access_token") as [a|], (d !! "refresh_token") as [b|]; eauto.
Qed.

Lemma with_token_refresh_eq {A} (func : M A) w :
  with_token_refresh env func w =
  match invoke func w with
  | (Raise e, w1) =>
      if token_signal e then
        match ensure_valid_token env w1 with
        | (Return _, w2) =>
            match invoke func w2 with
            | (Raise ve, w3) =>
                if is_ValueError ve then cleared (str ve) w3 else (Raise ve, w3)
            | r => r
            end
        | (Raise ve, w2) =>
            if is_ValueError ve then cleared (str ve) w2 else (Raise ve, w2)
        | (Rerun, w2) => (Rerun, w2)
        end
      else (Raise e, w1)
  | r => r
  end.
Proof.
  unfold with_token_refresh, try_except, any_Exception, cleared.
  destruct (invoke func w) as [[a|e|] w1]; try reflexivity.
  destruct (token_signal e); [|reflexivity]. unfold bind.
  destruct (ensure_valid_token env w1) as [[[]|ve|] w2]; try reflexivity.
Qed.

(** The session a wrapped read-only function leaves: untouched, renewed
    or empty *)
Lemma with_token_refresh_session {A} (func : M A) w :
  read_only func ->
  let w' := snd (with_token_refresh env func w) in
  (invocations w' = S (invocations w) \/ invocations w' = S (S (invocations w)))
  /\ (session_state w' = session_state w
      \/ session_state w' = ∅
      \/ (truthy (session_value "refresh_token" w) = true
          /\ exists a b,
               session_state w'
               = <["refresh_token" := VStr b]>
                 (<["auth_token" := VStr a]>
                  (<["api_client" := VApiClient a]> (session_state w))))).
Proof.
  intros Hro. cbv zeta. rewrite with_token_refresh_eq.
  pose proof (invoke_read_only func w Hro) as [Hs Hi].
  destruct (invoke func w) as [[a|e|] w1]; simpl in *; auto.
  destruct (token_signal e); simpl; auto.
  assert (session_value "refresh_token" w1 = session_value "refresh_token" w)
    as Hrt by (unfold session_value; now rewrite Hs).
  destruct (ensure_valid_token_cases w1)
    as [[_ ->] | [[_ ->] | [Ht (ta & tb & ->)]]]; simpl; auto.
  pose proof (invoke_read_only func (renewed ta tb w1) Hro) as [Hs2 Hi2].
  rewrite Hrt in Ht.
  destruct (invoke func (renewed ta tb w1)) as [[a|ve|] w3]; simpl in *.
  2: destruct (is_ValueError ve); simpl.
  all: rewrite ?Hs2, ?Hi2, ?Hs, ?Hi; eauto 8.
Qed.

(** X6: a wrapped read-only operation invokes its function once or twice,
    never more; it leaves the session untouched, or empty, or with exactly
    the three renewal keys replaced by an issued pair; and when the first
    invocation returns, its result is the wrapper's, with no renewal. *)
Theorem with_token_refresh_bounded {A} (func : M A) w :
  read_only func ->
  let r := with_token_refresh env func w in
  (invocations (snd r) = S (invocations w)
   \/ invocations (snd r) = S (S (invocations w)))
  /\ (session_state (snd r) = session_state w
      \/ session_state (snd r) = ∅
      \/ exists a b,
           session_state (snd r)
           = <["refresh_token" := VStr b]>
             (<["auth_token" := VStr a]>
              (<["api_client" := VApiClient a]> (session_state w))))
  /\ (forall a w1, invoke func w = (Return a, w1) -> r = (Return a, w1)).
Proof.
  intros Hro. cbv zeta.
  destruct (with_token_refresh_session func w Hro) as [Hi Hs].
  split; [exact Hi|]. split.
  - destruct Hs as [Hs | [Hs | (_ & a & b & Hs)]]; eauto.
  - intros a w1 Hf. rewrite with_token_refresh_eq, Hf. reflexivity.
Qed.

(** X7: when the wrapped function fails with a token-signal error and the
    session holds no refresh token, the wrapper makes no request: it
    displays "No refresh token available. Please login again.", empties
    the session and stops the run; the original error is not raised. *)
Theorem with_token_refresh_without_refresh_token {A} (func : M A) w e w1 :
  invoke func w = (Raise e, w1) ->
  token_signal e = true ->
  truthy (session_value "refresh_token" w1) = false ->
  let r := with_token_refresh env func w in
  fst r = Rerun
  /\ session_state (snd r) = ∅
  /\ ui (snd r)
     = (ui w1 ++ [st_error_msg
                    "No refresh token available. Please login again."])%list
  /\ net (snd r) = net w1.
Proof.
  intros Hf Hs Ht. cbv zeta. rewrite with_token_refresh_eq, Hf, Hs.
  destruct (ensure_valid_token_cases w1)
    as [[_ ->] | [[Ht' _] | [Ht' _]]]; try congruence.
  simpl. auto.
Qed.

(** X8: the session restoration of [main], the three keys being present.
    It does nothing unless the user name is empty and both tokens are
    there.  Then it renews: on success the user name becomes what
    [stored_username] holds ([None] when that key is absent) and the
    issued pair is kept; on failure the session is emptied and the run
    restarts. *)
Theorem restore_session_outcome w username auth_token refresh_token :
  session_state w !! "username" = Some username ->
  session_state w !! "auth_token" = Some auth_token ->
  session_state w !! "refresh_token" = Some refresh_token ->
  let r := restore_session env w in
  if negb (truthy username) && truthy auth_token && truthy refresh_token then
    match ensure_valid_token env w with
    | (Return _, w1) =>
        r = (Return tt,
             set_session
               (<["username" := session_value "stored_username" w]>
                  (session_state w1)) w1)
    | (_, w1) => r = (Rerun, set_session ∅ w1)
    end
  else r = (Return tt, w).
Proof.
  intros Hu Ha Hr. cbv zeta. unfold restore_session, session_attr.
  run. rewrite Hu. simpl.
  destruct (truthy username); simpl; [reflexivity|].
  rewrite Ha. simpl. destruct (truthy auth_token); simpl; [|reflexivity].
  rewrite Hr. simpl. destruct (truthy refresh_token); simpl; [|reflexivity].
  unfold session_set, session_clear, st_rerun.
  destruct (ensure_valid_token_cases w)
    as [[_ ->] | [[_ ->] | [_ (a & b & ->)]]]; simpl; try reflexivity.
  unfold session_value. simpl.
  rewrite !lookup_insert_ne by discriminate. reflexivity.
Qed.

Lemma login_form_session username password submit w :
  session_state (snd (login_form env username password submit w)) = session_state w
  \/ (Py.nonempty username = true
      /\ exists a b,
           session_state (snd (login_form env username password submit w))
           = <["refresh_token" := VStr b]>
             (<["auth_token" := VStr a]>
              (<["stored_username" := VStr username]>
               (<["username" := VStr username]>
                (<["api_client" := VApiClient a]> (session_state w)))))).
Proof.
  unfold login_form. destruct submit; [|now left].
  destruct (Py.nonempty username) eqn:Hu; simpl; [|now left].
  destruct (Py.nonempty password); simpl; [|now left].
  unfold login, fetch_access_token, requests_post, st_error. run.
  destruct (token_endpoint env (net w) _) as [s|d]; simpl; [now left|].
  rewrite !has_key_lookup. unfold item.
  destruct (d !! "access_token") as [a|] eqn:Ea; simpl;
    destruct (d !! "refresh_token") as [b|] eqn:Eb; simpl;
    rewrite ?Ea, ?Eb; run; rewrite ?Eb; simpl; eauto.
Qed.

(** Under [tokens_have_user] the restoration changes nothing. *)
Lemma restore_session_idle w :
  tokens_have_user w -> snd (restore_session env w) = w.
Proof.
  unfold tokens_have_user, session_value, restore_session, session_attr.
  intros H. run.
  destruct (session_state w !! "username") as [u|]; simpl in *; [|reflexivity].
  destruct (truthy u); simpl; [reflexivity|].
  destruct (session_state w !! "auth_token") as [a|]; simpl; [|reflexivity].
  destruct (truthy a); simpl; [|reflexivity].
  destruct (session_state w !! "refresh_token") as [r|]; simpl in *; [|reflexivity].
  destruct (truthy r); simpl; [|reflexivity].
  specialize (H eq_refl). discriminate.
Qed.

(** X9: two invariants of the session: the client stored in it carries
    the stored access token, and a session with a refresh token has a
    user name.  The initialisation, the restoration, the login form, the
    logout and every wrapped read-only operation keep both. *)
Theorem session_invariants_preserved w :
  client_matches_token w /\ tokens_have_user w ->
  let keeps (w' : World) := client_matches_token w' /\ tokens_have_user w' in
  keeps (snd (init_session w))
  /\ keeps (snd (restore_session env w))
  /\ (forall username password submit,
        keeps (snd (login_form env username password submit w)))
  /\ keeps (snd (logout w))
  /\ (forall A (func : M A),
        read_only func -> keeps (snd (with_token_refresh env func w))).
Proof.
  intros [Hc Ht]. cbv zeta.
  split; [|split; [|split; [|split]]].
  - split.
    + intros a. rewrite !init_session_lookup. unfold initialised. simpl.
      destruct (session_state w !! "api_client") as [v|] eqn:E; simpl; [|discriminate].
      intros [= ->]. now rewrite (Hc a E).
    + unfold tokens_have_user, session_value in *.
      rewrite !init_session_lookup. unfold initialised. simpl.
      destruct (session_state w !! "refresh_token"),
               (session_state w !! "username"); exact Ht.
  - now rewrite restore_session_idle.
  - intros username password submit.
    destruct (login_form_session username password submit w)
      as [Hs | (Hu & a & b & Hs)].
    + unfold client_matches_token, tokens_have_user, session_value.
      rewrite Hs. auto.
    + unfold client_matches_token, tokens_have_user, session_value.
      rewrite Hs. split.
      * intros a'. rewrite !lookup_insert_ne by discriminate.
        rewrite lookup_insert_eq. intros [= <-].
        rewrite lookup_insert_ne by discriminate. apply lookup_insert_eq.
      * intros _. rewrite !lookup_insert_ne by discriminate.
        rewrite lookup_insert_eq. exact Hu.
  - split; [intros a; simpl; rewrite lookup_empty; discriminate|].
    unfold tokens_have_user, session_value. simpl. rewrite !lookup_empty.
    discriminate.
  - intros A func Hro.
    destruct (with_token_refresh_session func w Hro)
      as [_ [Hs | [Hs | (Hrt & a & b & Hs)]]].
    + unfold client_matches_token, tokens_have_user, session_value.
      rewrite Hs. auto.
    + unfold client_matches_token, tokens_have_user, session_value.
      rewrite Hs. split; [intros a|]; rewrite ?lookup_empty; discriminate.
    + unfold client_matches_token, tokens_have_user, session_value in *.
      rewrite Hs. split.
      * intros a'. rewrite !lookup_insert_ne by discriminate.
        rewrite lookup_insert_eq. intros [= <-].
        rewrite lookup_insert_ne by discriminate. apply lookup_insert_eq.
      * intros _. rewrite !lookup_insert_ne by discriminate. auto.
Qed.

(** X10: on a session in which every refresh token comes with a user
    name, the restoration that follows the initialisation in [main] never
    fires: it returns at once, without any request, and leaves the
    session as the initialisation made it. *)
Theorem restore_session_never_fires w :
  tokens_have_user w ->
  restore_session env (snd (init_session w)) = (Return tt, snd (init_session w)).
Proof.
  intros Ht.
  assert (forall key v, In (key, v) initial_values ->
            session_state (snd (init_session w)) !! key
            = Some (default v (session_state w !! key))) as Hk.
  { intros key v Hin. rewrite init_session_lookup. unfold initial_values in Hin.
    simpl in Hin.
    repeat (destruct Hin as [[= <- <-]|Hin]; [reflexivity|]). destruct Hin. }
  unfold tokens_have_user, session_value in Ht.
  unfold restore_session, session_attr. run.
  rewrite (Hk "username" VNone) by (simpl; auto 10). simpl.
  destruct (truthy (default VNone (session_state w !! "username"))) eqn:Eu;
    simpl; [reflexivity|].
  rewrite (Hk "auth_token" VNone) by (simpl; auto 10). simpl.
  destruct (truthy (default VNone (session_state w !! "auth_token")));
    simpl; [|reflexivity].
  rewrite (Hk "refresh_token" VNone) by (simpl; auto 10). simpl.
  destruct (truthy (default VNone (session_state w !! "refresh_token"))) eqn:Er;
    simpl; [|reflexivity].
  specialize (Ht eq_refl). discriminate.
Qed.

End Session.

(** ** The engine operations, further properties *)

Section Engine.

Variable env : Env.

Ltac run :=
  unfold bind, ret, raise, lift, try_except, any_Exception, session_get in *;
  simpl in *.

Lemma single_call_body_logged_in c w tok :
  session_state w !! "api_client" = Some (VApiClient tok) ->
  invoke (let* api_client := session_api_client in DefaultApi env api_client c) w
  = match engine env (net w) tok c with
    | inl e => (Raise e, set_net (net w ++ [EngineCall tok c]) (tick w))
    | inr r => (Return r, set_net (net w ++ [EngineCall tok c]) (tick w))
    end.
Proof.
  intros H. unfold invoke, bind.
  rewrite (session_api_client_logged_in (tick w) tok) by exact H.
  unfold DefaultApi. simpl. destruct (engine env (net w) tok c); reflexivity.
Qed.

(** X11: when the engine rejects the call of [get_game], [get_board] or
    [get_current_turn] with a token-signal error and the renewal issues
    the pair (a, b), the network sees exactly three calls: the rejected
    one with the old token, the renewal carrying the stored refresh
    token, and the same call again with the new access token [a].  The
    answer to that third call is the outcome, except that a [ValueError]
    empties the session and restarts the run. *)
Theorem retry_carries_renewed_token c w tok e token_data a b :
  session_state w !! "api_client" = Some (VApiClient tok) ->
  engine env (net w) tok c = inl e ->
  token_signal e = true ->
  truthy (session_value "refresh_token" w) = true ->
  token_endpoint env (net w ++ [EngineCall tok c])
    (refresh_data (session_value "refresh_token" w)) = HttpJson token_data ->
  token_data !! "access_token" = Some a ->
  token_data !! "refresh_token" = Some b ->
  let r := single_call env c w in
  let first_two :=
    (net w ++ [EngineCall tok c;
               TokenPost (refresh_data (session_value "refresh_token" w))])%list in
  net (snd r) = (first_two ++ [EngineCall a c])%list
  /\ match engine env first_two a c with
     | inr answer =>
         fst r = Return answer
         /\ session_state (snd r) !! "auth_token" = Some (VStr a)
         /\ session_state (snd r) !! "refresh_token" = Some (VStr b)
     | inl e2 =>
         if is_ValueError e2
         then fst r = Rerun /\ session_state (snd r) = ∅
         else fst r = Raise e2
              /\ session_state (snd r) !! "auth_token" = Some (VStr a)
     end
  /\ (forall game_id,
        get_game env game_id = single_call env (get_chess_by_id game_id)
        /\ get_board env game_id = single_call env (chess_get_board game_id)
        /\ get_current_turn env game_id
           = single_call env (chess_get_current_turn game_id)).
Proof.
  intros Hc He Hs Ht Hd Ha Hb. cbv zeta.
  split; [|split]; [| |intros; repeat split; reflexivity].
  all: unfold single_call; rewrite with_token_refresh_eq.
  all: rewrite (single_call_body_logged_in c w tok Hc), He, Hs.
  all: rewrite (ensure_valid_token_eq env).
  all: simpl; fold (session_value "refresh_token" w); rewrite Ht.
  all: rewrite Hd, Ha, Hb.
  all: match goal with
       | |- context [invoke ?f ?w2] =>
           rewrite (single_call_body_logged_in c w2 a)
             by (simpl; rewrite !lookup_insert_ne by discriminate;
                 apply lookup_insert_eq)
       end; simpl.
  all: rewrite <- !app_assoc; simpl.
  all: destruct (engine env _ a c) as [e2|answer]; simpl.
  all: try (destruct (is_ValueError e2); simpl).
  all: repeat split; try reflexivity.
  all: try (rewrite lookup_insert_ne by discriminate; apply lookup_insert_eq).
  all: try apply lookup_insert_eq.
Qed.

Lemma lower_lower_char c : Py.lower_char (Py.lower_char c) = Py.lower_char c.
Proof. destruct c as [[] [] [] [] [] [] [] []]; reflexivity. Qed.

Lemma digit_range c : Py.is_digit c = true -> 48 <= Py.ord c <= 57.
Proof. unfold Py.is_digit. intros H. apply andb_prop in H. lia. Qed.

Lemma lower_char_digit c : Py.is_digit c = true -> Py.lower_char c = c.
Proof. destruct c as [[] [] [] [] [] [] [] []]; (reflexivity || discriminate). Qed.

(** X12: what the conversion of [make_move] accepts.  A string shorter
    than two characters raises [IndexError]; a second character that is
    not a digit raises [ValueError]; otherwise the conversion succeeds,
    whatever follows the second character and whatever the case of the
    first (the square and its lower-cased two-character form convert
    alike): the file is the lower-cased first character minus 'a' (not
    bounded to a..h), the rank the digit minus 1, from -1 for "0" to 8
    for "9". *)
Theorem parse_square_lenient s :
  match s with
  | String c0 (String c1 rest) =>
      if Py.is_digit c1 then
        parse_square s
          = inr {| x := Py.ord (Py.lower_char c0) - Py.ord "a";
                   y := Py.ord c1 - Py.ord "1" |}
        /\ parse_square s
           = parse_square (Py.lower (String c0 (String c1 EmptyString)))
        /\ -1 <= Py.ord c1 - Py.ord "1" <= 8
      else exists msg, parse_square s = inl (Exn ValueError msg)
  | _ => parse_square s = inl (Exn IndexError "string index out of range")
  end.
Proof.
  destruct s as [|c0 [|c1 rest]]; try reflexivity.
  unfold parse_square, index, int. simpl.
  destruct (Py.is_digit c1) eqn:Hd; [|eauto].
  rewrite lower_lower_char, (lower_char_digit c1 Hd), Hd.
  apply digit_range in Hd.
  change (Py.ord "1") with 49. repeat split; try lia.
  do 2 f_equal. lia.
Qed.

Lemma int_error_unknown c e :
  int c = inl e -> classify (str e) = Unknown.
Proof.
  unfold int. destruct (Py.is_digit c); [discriminate|].
  intros [= <-]. destruct c as [[] [] [] [] [] [] [] []]; reflexivity.
Qed.

Lemma parse_square_error_unknown s e :
  parse_square s = inl e -> classify (str e) = Unknown.
Proof.
  unfold parse_square, index.
  destruct s as [|c0 [|c1 rest]]; simpl; try (intros [= <-]; reflexivity).
  destruct (int c1) as [e'|d] eqn:E; [|discriminate].
  intros [= <-]. now apply int_error_unknown in E.
Qed.

Lemma make_move_parse_error game_id from_pos to_pos current_turn w e :
  parse_square from_pos = inl e \/ parse_square to_pos = inl e ->
  make_move env game_id from_pos to_pos current_turn w
  = (Raise (Exn ValueError "Move failed"),
     set_ui (ui w ++ [st_error_msg "Move failed. Please try again."]) (tick w)).
Proof.
  intros H. rewrite make_move_unwrapped. unfold invoke, make_move_body.
  unfold session_api_client. run.
  destruct (truthy (default VNone (session_state w !! "api_client"))); simpl.
  2: { reflexivity. }
  destruct (parse_square from_pos) as [e1|p] eqn:E1; simpl.
  { rewrite make_move_handler_eq.
    now rewrite (parse_square_error_unknown _ _ E1). }
  destruct H as [H|H]; [discriminate|]. rewrite H. simpl.
  rewrite make_move_handler_eq.
  now rewrite (parse_square_error_unknown _ _ H).
Qed.

(** X13: a square that [make_move] cannot convert never reaches the
    network.  Whatever the session, [make_move] then makes no request,
    displays "Move failed. Please try again." and raises
    [ValueError("Move failed")]. *)
Theorem make_move_unparseable_square game_id from_pos to_pos current_turn w e :
  parse_square from_pos = inl e \/ parse_square to_pos = inl e ->
  make_move env game_id from_pos to_pos current_turn w
  = (Raise (Exn ValueError "Move failed"),
     set_ui (ui w ++ [st_error_msg "Move failed. Please try again."]) (tick w)).
Proof. exact (make_move_parse_error game_id from_pos to_pos current_turn w e). Qed.


(** X14: whatever its arguments and the session, [make_move] returns or
    raises [ValueError("Move failed")] and nothing else; it never writes
    the session; it makes at most one network call, a move request, and
    never a token request; it displays nothing when it returns and
    exactly one of its three messages when it raises. *)
Theorem make_move_outcome game_id from_pos to_pos current_turn w :
  let r := make_move env game_id from_pos to_pos current_turn w in
  session_state (snd r) = session_state w
  /\ invocations (snd r) = S (invocations w)
  /\ (net (snd r) = net w
      \/ exists tok p q,
           net (snd r)
           = (net w ++ [EngineCall tok
                (move_endpoint current_turn game_id
                   {| var_from := p; to := q |})])%list)
  /\ ((fst r = Return tt /\ ui (snd r) = ui w /\ net (snd r) <> net w)
      \/ exists c,
           fst r = Raise (Exn ValueError "Move failed")
           /\ ui (snd r) = (ui w ++ [st_error_msg (move_error_message c)])%list).
Proof.
  cbv zeta. rewrite make_move_unwrapped. unfold invoke, make_move_body.
  unfold session_api_client, move_endpoint. run.
  assert (forall l (ev : net_event), (l ++ [ev])%list <> l) as Hneq.
  { intros l ev Heq. apply (f_equal (@length _)) in Heq.
    rewrite length_app in Heq. simpl in Heq. lia. }
  assert (forall e w1,
    session_state w1 = session_state w ->
    invocations w1 = S (invocations w) ->
    ui w1 = ui w ->
    (net w1 = net w
     \/ exists tok p q,
          net w1 = (net w ++ [EngineCall tok
                     (if String.eqb current_turn PieceColor_WHITE
                      then chess_make_white_move game_id {| var_from := p; to := q |}
                      else chess_make_black_move game_id {| var_from := p; to := q |})])%list) ->
    let r := make_move_handler e w1 in
    session_state (snd r) = session_state w
    /\ invocations (snd r) = S (invocations w)
    /\ (net (snd r) = net w
        \/ exists tok p q,
             net (snd r) = (net w ++ [EngineCall tok
                     (if String.eqb current_turn PieceColor_WHITE
                      then chess_make_white_move game_id {| var_from := p; to := q |}
                      else chess_make_black_move game_id {| var_from := p; to := q |})])%list)
    /\ ((fst r = Return tt /\ ui (snd r) = ui w /\ net (snd r) <> net w)
        \/ exists c,
             fst r = Raise (Exn ValueError "Move failed")
             /\ ui (snd r) = (ui w ++ [st_error_msg (move_error_message c)])%list))
    as Hfail.
  { intros e w1 Hs Hi Hu Hn. cbv zeta. rewrite make_move_handler_eq. simpl.
    rewrite Hu. repeat split; auto. right. eexists. split; reflexivity. }
  destruct (truthy (default VNone (session_state w !! "api_client"))); simpl.
  2: { apply (Hfail (Exn ValueError "Please login first") (tick w)); auto. }
  destruct (parse_square from_pos) as [e1|p]; simpl.
  { apply (Hfail e1 (tick w)); auto. }
  destruct (parse_square to_pos) as [e2|q]; simpl.
  { apply (Hfail e2 (tick w)); auto. }
  destruct (default VNone (session_state w !! "api_client")) as [|?|?|tok];
    destruct (String.eqb current_turn PieceColor_WHITE) eqn:Et; unfold DefaultApi.
  all: try (apply (Hfail (Exn OtherException "AttributeError") (tick w)); now auto).
  all: match goal with |- context [engine env ?h ?t ?c] =>
         destruct (engine env h t c) as [e|[]] end.
  all: try (apply Hfail; simpl; auto; right; exists tok, p, q; reflexivity).
  all: simpl; repeat split; auto.
  all: try (right; exists tok, p, q; reflexivity).
  all: left; repeat split; apply Hneq.
Qed.

Lemma basic_validation_valid is_white from_square to_square w :
  valid_square from_square = true ->
  valid_square to_square = true ->
  basic_validation is_white from_square to_square w
  = (Return true, set_ui (ui w ++ [st_info_msg (start_ranks_hint is_white)]) w).
Proof.
  intros Hf Ht.
  destruct (Coordinates.valid_square_inv _ Hf) as (f1 & r1 & -> & _).
  destruct (Coordinates.valid_square_inv _ Ht) as (f2 & r2 & -> & _).
  rewrite valid_square_two in Hf, Ht.
  apply andb_prop in Hf as [Hf1 Hr1]. apply andb_prop in Ht as [Hf2 Hr2].
  unfold basic_validation, index_in, and_then, index, st_info, start_ranks_hint.
  run. rewrite Hf1, Hf2, Hr1, Hr2. simpl. now destruct is_white.
Qed.

Lemma lower_valid_square s : valid_square s = true -> Py.lower s = s.
Proof.
  intros H. destruct (Coordinates.valid_square_inv _ H) as (f & r & -> & Hf & Hr).
  unfold Py.lower. simpl. unfold Py.lower_char, Py.is_upper, Py.is_upper_accented.
  replace (Py.ord f <=? 90) with false by lia.
  replace (192 <=? Py.ord f) with false by lia.
  replace (216 <=? Py.ord f) with false by lia.
  replace (65 <=? Py.ord r) with false by lia.
  replace (192 <=? Py.ord r) with false by lia.
  replace (216 <=? Py.ord r) with false by lia.
  now rewrite andb_false_r.
Qed.

(** X15: the move form with two valid squares.  Submitted on a session
    with a client, it makes exactly one call of [make_move], which sends
    the translated move to the endpoint of [current_turn]; when the
    engine accepts, the run restarts; when it refuses, the form returns
    normally, the message of [make_move] following the hint.  Not
    submitted, it makes no network call. *)
Theorem move_form_submits_valid_squares
    game_id is_white current_turn f1 r1 f2 r2 w tok :
  let from_square := String f1 (String r1 EmptyString) in
  let to_square := String f2 (String r2 EmptyString) in
  session_state w !! "api_client" = Some (VApiClient tok) ->
  valid_square from_square = true ->
  valid_square to_square = true ->
  let call :=
    move_endpoint current_turn game_id
      {| var_from := square_position f1 r1; to := square_position f2 r2 |} in
  let r := move_form env game_id is_white current_turn
             from_square to_square true w in
  net (snd r) = (net w ++ [EngineCall tok call])%list
  /\ invocations (snd r) = S (invocations w)
  /\ match engine env (net w) tok call with
     | inr _ =>
         fst r = Rerun
         /\ ui (snd r) = (ui w ++ [st_info_msg (start_ranks_hint is_white)])%list
     | inl e =>
         fst r = Return tt
         /\ ui (snd r)
            = (ui w ++ [st_info_msg (start_ranks_hint is_white);
                        st_error_msg (move_error_message (classify (str e)))])%list
     end
  /\ net (snd (move_form env game_id is_white current_turn
                 from_square to_square false w)) = net w.
Proof.
  intros from_square to_square Hc Hf Ht. cbv zeta.
  unfold move_form, bind.
  rewrite (basic_validation_valid is_white _ _ w Hf Ht). simpl.
  rewrite !lower_valid_square by assumption.
  unfold try_except, bind.
  rewrite (make_move_logged_in env game_id from_square to_square current_turn
             (set_ui (ui w ++ [st_info_msg (start_ranks_hint is_white)]) w)
             tok (square_position f1 r1) (square_position f2 r2) Hc
             (Coordinates.parse_square_valid f1 r1 Hf)
             (Coordinates.parse_square_valid f2 r2 Ht)).
  simpl.
  match goal with |- context [engine env ?h ?t ?c] =>
    destruct (engine env h t c) as [e|u] end; simpl;
    rewrite <- ?app_assoc; auto.
Qed.

(** X16: who sees a created game as white.  For a game whose parties are
    those [create_chess_instance(player, opponent, color)] requests, the
    colour test of the game page makes the viewer white exactly when the
    viewer's user name is the white party's: the creator is white when
    the color, upper-cased, is "WHITE" or when playing against oneself;
    a game without the claim [preferred_username] on its white party
    raises instead. *)
Theorem creator_is_white player opponent color viewer w game :
  session_state w !! "username" = Some (VStr viewer) ->
  let white_name :=
    if String.eqb (Py.upper color) "WHITE" then player else opponent in
  let black_name :=
    if String.eqb (Py.upper color) "WHITE" then opponent else player in
  (chess_parties game
   = {| white := _username_to_party white_name;
        black := _username_to_party black_name |} ->
   player_is_white game w = (Return (String.eqb viewer white_name), w)
   /\ (viewer = player ->
       player_is_white game w
       = (Return (String.eqb (Py.upper color) "WHITE" || String.eqb player opponent),
          w)))
  /\ (entity (white (chess_parties game)) !! "preferred_username" = None ->
      player_is_white game w
      = (Raise (Exn OtherException "'NoneType' object is not subscriptable"), w)).
Proof.
  intros Hu. cbv zeta. unfold player_is_white, session_attr, bind.
  rewrite Hu. split.
  - intros ->. simpl. unfold _username_to_party, _create_party. simpl.
    rewrite lookup_insert_eq. simpl. split; [reflexivity|].
    intros ->. destruct (String.eqb (Py.upper color) "WHITE"); simpl.
    + now rewrite String.eqb_refl.
    + reflexivity.
  - intros ->. reflexivity.
Qed.

End Engine.

(** ** The board display *)

Module Board.

Lemma list_index_spec len i :
  (0 < len)%nat ->
  list_index len i
  = if (- Z.of_nat len <=? i) && (i <? Z.of_nat len)
    then Some (Z.to_nat (i mod Z.of_nat len)) else None.
Proof.
  intros Hlen. unfold list_index.
  destruct (0 <=? i) eqn:E0; simpl.
  - destruct (i <? Z.of_nat len) eqn:E1; simpl.
    + replace (- Z.of_nat len <=? i) with true by lia. simpl.
      rewrite Z.mod_small by lia. reflexivity.
    + replace (i <? 0) with false by lia. now rewrite !andb_false_r.
  - replace (i <? 0) with true by lia.
    replace (i <? Z.of_nat len) with true by lia. rewrite !andb_true_r.
    destruct (- Z.of_nat len <=? i) eqn:E1; [|reflexivity].
    do 2 f_equal. apply (Z.mod_unique i (Z.of_nat len) (-1)); lia.
Qed.

Lemma cell_insert_row board k row i j :
  (k < length board)%nat ->
  cell (<[k := row]> board) i j
  = if (i =? k)%nat then row !! j else cell board i j.
Proof.
  intros Hk. unfold cell. destruct (Nat.eqb_spec i k) as [->|Hne].
  - now rewrite list_lookup_insert_eq.
  - now rewrite list_lookup_insert_ne by congruence.
Qed.

Lemma board_shape_insert board k row :
  board_shape board -> length row = 8%nat -> board_shape (<[k := row]> board).
Proof.
  intros [Hl Hr] Hrow. split.
  - now rewrite length_insert.
  - apply Forall_insert; assumption.
Qed.

Lemma list_index_8 i :
  list_index 8 i
  = if (-8 <=? i) && (i <? 8) then Some (Z.to_nat (i mod 8)) else None.
Proof. exact (list_index_spec 8 i ltac:(lia)). Qed.

Lemma row_in_range py :
  (0 <=? py) && (py <=? 15) = (-8 <=? 7 - py) && (7 - py <? 8).
Proof.
  apply Bool.eq_iff_eq_true.
  rewrite !andb_true_iff, !Z.leb_le, Z.ltb_lt. lia.
Qed.

Lemma list_get_8 {A} (l : list A) i :
  length l = 8%nat ->
  if (-8 <=? i) && (i <? 8) then
    exists a, l !! Z.to_nat (i mod 8) = Some a /\ list_get l i = inr a
  else list_get l i = inl (Exn IndexError "list index out of range").
Proof.
  intros Hl. unfold list_get. rewrite Hl, list_index_8.
  destruct ((-8 <=? i) && (i <? 8)); [|reflexivity].
  destruct (l !! Z.to_nat (i mod 8)) as [a|] eqn:E; [eauto|].
  apply lookup_ge_None in E. pose proof (Z.mod_pos_bound i 8). lia.
Qed.

Lemma list_set_8 {A} (l : list A) i a :
  length l = 8%nat ->
  list_set l i a
  = if (-8 <=? i) && (i <? 8) then inr (<[Z.to_nat (i mod 8) := a]> l)
    else inl (Exn IndexError "list assignment index out of range").
Proof.
  intros Hl. unfold list_set. rewrite Hl, list_index_8.
  now destruct ((-8 <=? i) && (i <? 8)).
Qed.

Lemma place_piece_cases board piece :
  board_shape board ->
  let px := x (position piece) in
  let py := y (position piece) in
  if (-8 <=? px) && (px <? 8) && (0 <=? py) && (py <=? 15) then
    exists board',
      place_piece board piece = inr board'
      /\ board_shape board'
      /\ cell board' (Z.to_nat ((7 - py) mod 8)) (Z.to_nat (px mod 8))
         = Some (Some piece)
      /\ forall i j,
           (i, j) <> (Z.to_nat ((7 - py) mod 8), Z.to_nat (px mod 8)) ->
           cell board' i j = cell board i j
  else exists msg, place_piece board piece = inl (Exn IndexError msg).
Proof.
  intros [Hl Hr]. cbv zeta. unfold place_piece.
  set (px := x (position piece)). set (py := y (position piece)).
  pose proof (list_get_8 board (7 - py) Hl) as Hget.
  rewrite Hl, list_index_8. rewrite <- andb_assoc, row_in_range.
  destruct ((-8 <=? 7 - py) && (7 - py <? 8)) eqn:Erow.
  2: { rewrite Hget, andb_false_r. eauto. }
  destruct Hget as (row & Hrow & ->).
  assert (length row = 8%nat) as Hlen
    by exact (proj1 (Forall_lookup _ _) Hr _ _ Hrow).
  rewrite (list_set_8 row px (Some piece) Hlen).
  destruct ((-8 <=? px) && (px <? 8)) eqn:Ecol; simpl; [|eauto].
  apply andb_prop in Erow as [Er1 Er2]. apply andb_prop in Ecol as [Ec1 Ec2].
  set (k := Z.to_nat ((7 - py) mod 8)) in *.
  set (c := Z.to_nat (px mod 8)).
  assert (k < 8)%nat as Hk
    by (unfold k; pose proof (Z.mod_pos_bound (7 - py) 8); lia).
  assert (c < 8)%nat as Hc
    by (unfold c; pose proof (Z.mod_pos_bound px 8); lia).
  exists (<[k := <[c := Some piece]> row]> board).
  split; [reflexivity|]. split; [|split].
  - apply board_shape_insert; [now split|]. now rewrite length_insert.
  - rewrite cell_insert_row by lia. rewrite Nat.eqb_refl.
    apply list_lookup_insert_eq. lia.
  - intros i j Hij. rewrite cell_insert_row by lia.
    destruct (Nat.eqb_spec i k) as [->|Hne]; [|reflexivity].
    unfold cell. rewrite Hrow. apply list_lookup_insert_ne. congruence.
Qed.

(** X17: placing one piece on a board of eight rows of eight.  The piece
    lands in row [7 - y], column [x], Python's negative indices counting
    from the end: it is placed when [-8 <= x < 8] and [0 <= y <= 15], in
    row [(7 - y) mod 8] and column [x mod 8], so a piece reported with
    rank index 8 is drawn on the bottom row and one with file index -1 in
    the last column; that cell is overwritten, every other cell and the
    shape of the board are kept.  Outside these bounds [IndexError] is
    raised. *)
Theorem place_piece_outcome board piece :
  board_shape board ->
  let px := x (position piece) in
  let py := y (position piece) in
  if (-8 <=? px) && (px <? 8) && (0 <=? py) && (py <=? 15) then
    exists board',
      place_piece board piece = inr board'
      /\ board_shape board'
      /\ cell board' (Z.to_nat ((7 - py) mod 8)) (Z.to_nat (px mod 8))
         = Some (Some piece)
      /\ forall i j,
           (i, j) <> (Z.to_nat ((7 - py) mod 8), Z.to_nat (px mod 8)) ->
           cell board' i j = cell board i j
  else exists msg, place_piece board piece = inl (Exn IndexError msg).
Proof. exact (place_piece_cases board piece). Qed.


Lemma cell_empty_board i j :
  (i < 8)%nat -> (j < 8)%nat -> cell empty_board i j = Some None.
Proof.
  intros Hi Hj. unfold cell, empty_board.
  rewrite lookup_replicate_2 by lia. now apply lookup_replicate_2.
Qed.

Lemma board_shape_empty : board_shape empty_board.
Proof.
  split; [reflexivity|]. unfold empty_board.
  apply Forall_replicate. reflexivity.
Qed.

Lemma place_pieces_from pieces : forall board0,
  board_shape board0 ->
  Forall (fun p => valid_position (position p)) pieces ->
  exists board,
    place_pieces board0 pieces = inr board
    /\ board_shape board
    /\ forall fx fy, 0 <= fx <= 7 -> 0 <= fy <= 7 ->
         cell board (Z.to_nat (7 - fy)) (Z.to_nat fx)
         = match occupant fx fy pieces with
           | Some p => Some (Some p)
           | None => cell board0 (Z.to_nat (7 - fy)) (Z.to_nat fx)
           end.
Proof.
  induction pieces as [|piece rest IH]; intros board0 Hshape Hvalid.
  - exists board0. simpl. auto.
  - inversion Hvalid as [|? ? [Hx Hy] Hrest]; subst.
    pose proof (place_piece_cases board0 piece Hshape) as Hp. cbv zeta in Hp.
    replace ((-8 <=? x (position piece)) && (x (position piece) <? 8)
             && (0 <=? y (position piece)) && (y (position piece) <=? 15))
      with true in Hp
      by (symmetry; rewrite !andb_true_iff, !Z.leb_le, Z.ltb_lt; lia).
    destruct Hp as (board1 & Hplace & Hshape1 & Hat & Hother).
    rewrite !Z.mod_small in Hat, Hother by lia.
    destruct (IH board1 Hshape1 Hrest) as (board & Hrun & Hshape2 & Hcells).
    exists board. simpl. rewrite Hplace. split; [exact Hrun|].
    split; [exact Hshape2|].
    intros fx fy Hfx Hfy. rewrite (Hcells fx fy Hfx Hfy).
    destruct (occupant fx fy rest); [reflexivity|].
    destruct (Z.eqb_spec (x (position piece)) fx) as [<-|Hnx]; simpl.
    + destruct (Z.eqb_spec (y (position piece)) fy) as [<-|Hny]; simpl.
      * exact Hat.
      * apply Hother. intros [= H1]. lia.
    + apply Hother. intros [= _ H2]. lia.
Qed.

(** X18: drawing a list of pieces whose positions are all on the board
    never raises and keeps the board eight by eight; the cell of file
    [fx] and rank [fy], which is row [7 - fy], column [fx], ends up with
    the last piece of the list that stands there, and empty when there is
    none: a later piece overwrites an earlier one on the same square. *)
Theorem place_pieces_valid pieces :
  Forall (fun p => valid_position (position p)) pieces ->
  exists board,
    place_pieces empty_board pieces = inr board
    /\ board_shape board
    /\ forall fx fy, 0 <= fx <= 7 -> 0 <= fy <= 7 ->
         cell board (Z.to_nat (7 - fy)) (Z.to_nat fx)
         = Some (occupant fx fy pieces).
Proof.
  intros Hvalid.
  destruct (place_pieces_from pieces empty_board board_shape_empty Hvalid)
    as (board & Hrun & Hshape & Hcells).
  exists board. split; [exact Hrun|]. split; [exact Hshape|].
  intros fx fy Hfx Hfy. rewrite (Hcells fx fy Hfx Hfy).
  destruct (occupant fx fy pieces); [reflexivity|].
  apply cell_empty_board; lia.
Qed.

Lemma lookup_concat_blocks {A} (n : nat) (ls : list (list A)) : forall i k,
  Forall (fun l => length l = n) ls ->
  (k < n)%nat ->
  concat ls !! (i * n + k)%nat
  = match ls !! i with Some l => l !! k | None => None end.
Proof.
  induction ls as [|l ls IH]; intros i k Hall Hk; [reflexivity|].
  inversion Hall as [|? ? Hl Hrest]; subst. simpl.
  destruct i as [|i]; simpl.
  - apply lookup_app_l. lia.
  - rewrite lookup_app_r by lia.
    replace (length l + i * length l + k - length l)%nat
      with (i * length l + k)%nat by lia.
    now apply IH.
Qed.

Lemma length_concat_blocks {A} (n : nat) (ls : list (list A)) :
  Forall (fun l => length l = n) ls ->
  length (concat ls) = (length ls * n)%nat.
Proof.
  induction 1 as [|l ls Hl _ IH]; [reflexivity|].
  simpl. rewrite length_app, IH, Hl. reflexivity.
Qed.

Lemma row_html_length i row : length (row_html i row) = (2 + length row)%nat.
Proof.
  unfold row_html. rewrite !length_app, length_imap. simpl. lia.
Qed.

(** X19: where and how [display_board] draws a square.  The HTML list of
    an eight-by-eight board has 102 elements; the square of file [fx] and
    rank [fy] is the element [12 + 10 * (7 - fy) + fx], in the row that
    starts with the label [fy + 1] (rank 8 on top, whatever [is_white]
    is), and its class is [square-light] exactly when [fx + fy] is even,
    so that a1 is drawn light. *)
Theorem board_html_square board fx fy :
  board_shape board ->
  0 <= fx <= 7 ->
  0 <= fy <= 7 ->
  let i := Z.to_nat (7 - fy) in
  let j := Z.to_nat fx in
  length (board_html board) = 102%nat
  /\ (exists c,
        cell board i j = Some c
        /\ board_html board !! (12 + 10 * i + j)%nat = Some (square_span i j c))
  /\ board_html board !! (11 + 10 * i)%nat = Some (rank_label (fy + 1))
  /\ is_light i j = Z.even (fx + fy).
Proof.
  intros [Hl Hr] Hfx Hfy i j.
  assert (i < 8)%nat as Hi by (unfold i; lia).
  assert (j < 8)%nat as Hj by (unfold j; lia).
  assert (Forall (fun l => length l = 10%nat) (imap row_html board)) as Hrows.
  { apply Forall_lookup. intros k l Hk.
    rewrite list_lookup_imap in Hk.
    destruct (board !! k) as [row|] eqn:Erow; [|discriminate].
    injection Hk as <-. rewrite row_html_length.
    now rewrite (proj1 (Forall_lookup _ _) Hr _ _ Erow). }
  assert (length (concat (imap row_html board)) = 80%nat) as Hconcat.
  { rewrite (length_concat_blocks 10) by exact Hrows.
    now rewrite length_imap, Hl. }
  destruct (board !! i) as [row|] eqn:Erow.
  2: { apply lookup_ge_None in Erow. lia. }
  assert (length row = 8%nat) as Hrow
    by exact (proj1 (Forall_lookup _ _) Hr _ _ Erow).
  destruct (row !! j) as [c|] eqn:Ec.
  2: { apply lookup_ge_None in Ec. lia. }
  assert (forall k, (k < 10)%nat ->
            board_html board !! (11 + 10 * i + k)%nat = row_html i row !! k)
    as Hlook.
  { intros k Hk. unfold board_html.
    rewrite (lookup_app_r [_]) by (simpl; lia).
    rewrite (lookup_app_r coordinate_line) by (simpl; lia).
    rewrite lookup_app_l by (rewrite Hconcat; simpl; lia).
    replace (11 + 10 * i + k - length [_ : string] - length coordinate_line)%nat
      with (i * 10 + k)%nat by (simpl; lia).
    rewrite (lookup_concat_blocks 10) by assumption.
    now rewrite list_lookup_imap, Erow. }
  split; [|split; [|split]].
  - unfold board_html. rewrite !length_app, Hconcat. reflexivity.
  - exists c. split; [unfold cell; now rewrite Erow|].
    replace (12 + 10 * i + j)%nat with (11 + 10 * i + S j)%nat by lia.
    rewrite Hlook by lia. unfold row_html.
    rewrite (lookup_app_r [_]) by (simpl; lia).
    rewrite lookup_app_l by (rewrite length_imap; simpl; lia).
    simpl. replace (j - 0)%nat with j by lia.
    now rewrite list_lookup_imap, Ec.
  - replace (11 + 10 * i)%nat with (11 + 10 * i + 0)%nat by lia.
    rewrite Hlook by lia. unfold row_html, rank_label.
    replace (8 - Z.of_nat i) with (fy + 1) by (unfold i; lia).
    reflexivity.
  - unfold is_light, i, j.
    replace (Z.of_nat (Z.to_nat (7 - fy) + Z.to_nat fx)) with (7 - fy + fx) by lia.
    assert (fx = 0 \/ fx = 1 \/ fx = 2 \/ fx = 3 \/ fx = 4 \/ fx = 5
            \/ fx = 6 \/ fx = 7) as Hx by lia.
    assert (fy = 0 \/ fy = 1 \/ fy = 2 \/ fy = 3 \/ fy = 4 \/ fy = 5
            \/ fy = 6 \/ fy = 7) as Hy by lia.
    destruct Hx as [->|[->|[->|[->|[->|[->|[->| ->]]]]]]];
      destruct Hy as [->|[->|[->|[->|[->|[->|[->| ->]]]]]]]; reflexivity.
Qed.

End Board.

(** ** The game page *)

Section Page.

Variable env : Env.

Ltac run :=
  unfold bind, ret, raise, lift, try_except, any_Exception, session_get in *;
  simpl in *.

(** The validation of the form only displays. *)
Lemma basic_validation_ui is_white from_square to_square w :
  exists u, snd (basic_validation is_white from_square to_square w) = set_ui u w.
Proof.
  assert (w = set_ui (ui w) w) as Hw by now destruct w.
  unfold basic_validation.
  destruct (Py.nonempty from_square && Py.nonempty to_square) eqn:Hne.
  2: { exists (ui w). exact Hw. }
  rewrite !len_is_2.
  destruct from_square as [|c1 [|c2 [|c3 f]]]; try discriminate Hne;
    destruct to_square as [|d1 [|d2 [|d3 t]]]; try discriminate Hne.
  all: unfold index_in, and_then, index, st_error, st_info; run.
  all: repeat match goal with
         | |- context [Py.contains ?a ?b] => destruct (Py.contains a b)
         end; simpl.
  all: destruct is_white; simpl; eauto.
Qed.

(** What the move form sends on a session with a client: nothing, or one
    move to the endpoint of [current_turn]; and how it ends. *)
Lemma move_form_net game_id is_white current_turn from_square to_square submit w tok :
  session_state w !! "api_client" = Some (VApiClient tok) ->
  let r := move_form env game_id is_white current_turn
             from_square to_square submit w in
  net (snd r) = net w
  \/ (fst r <> Raise (Exn IndexError "string index out of range")
      /\ exists m,
          net (snd r)
          = (net w ++ [EngineCall tok (move_endpoint current_turn game_id m)])%list).
Proof.
  intros Hc. cbv zeta. unfold move_form, bind.
  destruct (basic_validation_ui is_white from_square to_square w) as [u Hu].
  destruct (basic_validation is_white from_square to_square w) as [[v|e|] w1];
    simpl in Hu; subst w1; simpl; auto.
  destruct (submit && v && Py.nonempty from_square && Py.nonempty to_square);
    simpl; auto.
  unfold try_except, bind.
  destruct (parse_square (Py.lower from_square)) as [e1|p] eqn:E1.
  { rewrite (make_move_parse_error env _ _ _ _ _ e1) by auto. simpl. auto. }
  destruct (parse_square (Py.lower to_square)) as [e2|q] eqn:E2.
  { rewrite (make_move_parse_error env _ _ _ _ _ e2) by auto. simpl. auto. }
  rewrite (make_move_logged_in env game_id _ _ current_turn (set_ui u w) tok p q
             Hc E1 E2).
  match goal with |- context [engine env ?h ?t ?c] =>
    destruct (engine env h t c) as [e|a] end; simpl.
  all: right; split; [discriminate|eauto].
Qed.

Lemma single_call_succeeds c w tok (a : reply_type c) :
  session_state w !! "api_client" = Some (VApiClient tok) ->
  engine env (net w) tok c = inr a ->
  single_call env c w
  = (Return a, set_net (net w ++ [EngineCall tok c]) (tick w)).
Proof.
  intros Hc He. unfold single_call. rewrite with_token_refresh_eq.
  now rewrite (single_call_body_logged_in env c w tok Hc), He.
Qed.

(** X20: the game page, when the three reads succeed at once and the
    board can be drawn.  The viewer is white when the user name of the
    session is the white party's first [preferred_username].  When the
    turn the engine reports is not the viewer's colour, the page makes no
    further call whatever the form fields hold, and displays the waiting
    message.  When it is, at most one move follows the three reads, and
    it goes to the endpoint of the viewer's own colour.  The page never
    raises: it returns or the run restarts. *)
Theorem game_page_moves_on_own_turn
    game_id from_square to_square submit w tok viewer
    (game : Chess) (board : list Piece) (current_turn : string) name others :
  let read_game := EngineCall tok (get_chess_by_id game_id) in
  let read_board := EngineCall tok (chess_get_board game_id) in
  let read_turn := EngineCall tok (chess_get_current_turn game_id) in
  session_state w !! "api_client" = Some (VApiClient tok) ->
  session_state w !! "username" = Some viewer ->
  engine env (net w) tok (get_chess_by_id game_id) = inr game ->
  engine env (net w ++ [read_game]) tok (chess_get_board game_id) = inr board ->
  engine env (net w ++ [read_game; read_board]) tok
    (chess_get_current_turn game_id) = inr current_turn ->
  entity (white (chess_parties game)) !! "preferred_username"
    = Some (name :: others) ->
  Forall (fun p => valid_position (position p)) board ->
  let is_white := value_eq_str viewer name in
  let player_color := if is_white then PieceColor_WHITE else PieceColor_BLACK in
  let reads := (net w ++ [read_game; read_board; read_turn])%list in
  let r := game_page env game_id from_square to_square submit w in
  (fst r = Return tt \/ fst r = Rerun)
  /\ if String.eqb current_turn player_color then
       net (snd r) = reads
       \/ exists m,
            net (snd r)
            = (reads ++ [EngineCall tok
                 (if is_white then chess_make_white_move game_id m
                  else chess_make_black_move game_id m)])%list
     else
       fst r = Return tt
       /\ net (snd r) = reads
       /\ ui (snd r) = (ui w ++ [st_info_msg waiting_message])%list.
Proof.
  intros read_game read_board read_turn Hc Hu Hg Hb Ht Hname Hvalid.
  subst read_game read_board read_turn.
  cbv zeta. unfold game_page, try_except, bind.
  change (get_game env game_id) with (single_call env (get_chess_by_id game_id)).
  change (get_board env game_id) with (single_call env (chess_get_board game_id)).
  change (get_current_turn env game_id)
    with (single_call env (chess_get_current_turn game_id)).
  rewrite (single_call_succeeds (get_chess_by_id game_id) w tok game Hc Hg).
  cbv beta iota.
  rewrite (single_call_succeeds (chess_get_board game_id)
             (set_net (net w ++ [EngineCall tok (get_chess_by_id game_id)])
                (tick w)) tok board Hc).
  2: { simpl net. exact Hb. }
  cbv beta iota.
  rewrite (single_call_succeeds (chess_get_current_turn game_id)
             (set_net
                (net (set_net (net w ++ [EngineCall tok (get_chess_by_id game_id)])
                        (tick w))
                 ++ [EngineCall tok (chess_get_board game_id)])
                (tick (set_net (net w ++ [EngineCall tok (get_chess_by_id game_id)])
                         (tick w))))
             tok current_turn Hc).
  2: { simpl net. rewrite <- app_assoc. exact Ht. }
  cbv beta iota. simpl net. rewrite <- !app_assoc. simpl app.
  unfold player_is_white, session_attr, bind. simpl session_state.
  rewrite Hu, Hname. unfold ret.
  set (is_white := value_eq_str viewer name).
  set (player_color := if is_white then PieceColor_WHITE else PieceColor_BLACK).
  destruct (Board.place_pieces_from board empty_board Board.board_shape_empty Hvalid)
    as (b & Hplace & _).
  unfold display_board, lift, bind, ret. rewrite Hplace.
  destruct (String.eqb current_turn player_color) eqn:Eturn.
  2: { simpl. auto. }
  match goal with
  | |- context [move_form env ?g ?iw ?ct ?f ?t ?s ?w3] =>
      pose proof (move_form_net g iw ct f t s w3 tok Hc) as Hm;
      cbv zeta in Hm;
      destruct (move_form env g iw ct f t s w3) as [[[]|e|] w4]
  end; simpl in *.
  all: split; [auto|].
  all: destruct Hm as [Hm | (_ & m & Hm)]; [left; exact Hm|right].
  all: exists m; rewrite Hm; do 3 f_equal.
  all: unfold move_endpoint; apply String.eqb_eq in Eturn; rewrite Eturn.
  all: unfold player_color; destruct is_white; reflexivity.
Qed.

End Page.

(** ** Runs of the further properties *)

Module Checks.

Import Scenario Cases.

(** The identity provider is down when the session of alice is renewed. *)
Lemma ensure_valid_token_failure_witness :
  let w' := snd (ensure_valid_token unrecoverable logged_in) in
  session_state w' = session_state logged_in
  /\ app w' = app logged_in
  /\ ui w' = ui logged_in
  /\ net w' = [TokenPost (refresh_data (VStr "r0"))].
Proof.
  intros w'.
  assert (ensure_valid_token unrecoverable logged_in
          = (Raise (Exn ValueError "Session expired. Please login again."), w'))
    as H by (vm_compute; reflexivity).
  destruct (ensure_valid_token_failure unrecoverable logged_in _ w' H
              ltac:(discriminate))
    as (Hs & Ha & Hu & [(Hr & _) | (_ & _ & Hn)]); [discriminate Hr|].
  repeat split; assumption.
Defined.

(** The session of alice is renewed. *)
Lemma ensure_valid_token_success_witness :
  let w' := snd (ensure_valid_token accepting logged_in) in
  session_state w' !! "auth_token" = Some (VStr "t1")
  /\ session_state w' !! "refresh_token" = Some (VStr "r1")
  /\ session_state w' !! "username" = Some (VStr "alice").
Proof.
  intros w'.
  assert (ensure_valid_token accepting logged_in = (Return tt, w'))
    as H by (vm_compute; reflexivity).
  destruct (ensure_valid_token_success accepting logged_in w' H)
    as (d & a & b & Hd & Ha & Hb & _ & Hat & Hrt & Hframe & _).
  assert (HttpJson renewed_pair = HttpJson d) as Hd' by exact Hd.
  injection Hd' as <-.
  assert (Some "t1" = Some a) as Ha' by exact Ha. injection Ha' as <-.
  assert (Some "r1" = Some b) as Hb' by exact Hb. injection Hb' as <-.
  split; [exact Hat|]. split; [exact Hrt|].
  rewrite (Hframe "username" eq_refl). reflexivity.
Defined.

(** [get_board] on the expired token: two invocations, renewed session *)
Lemma with_token_refresh_bounded_witness :
  let r := get_board expired "game-1" logged_in in
  (invocations (snd r) = 1%nat \/ invocations (snd r) = 2%nat)
  /\ (session_state (snd r) = session_state logged_in
      \/ session_state (snd r) = ∅
      \/ exists a b,
           session_state (snd r)
           = <["refresh_token" := VStr b]>
             (<["auth_token" := VStr a]>
              (<["api_client" := VApiClient a]> (session_state logged_in)))).
Proof.
  intros r.
  destruct (with_token_refresh_bounded expired (get_board_body expired "game-1")
              logged_in (Runs.get_board_body_read_only expired "game-1"))
    as (Hi & Hs & _).
  split; [exact Hi | exact Hs].
Defined.

(** [get_board] on the expired token of a session without refresh token *)
Lemma with_token_refresh_without_refresh_token_witness :
  let r := get_board expired "game-1" without_refresh_token in
  fst r = Rerun
  /\ session_state (snd r) = ∅
  /\ ui (snd r)
     = [st_error_msg "No refresh token available. Please login again."]
  /\ net (snd r) = [EngineCall "t0" (chess_get_board "game-1")].
Proof.
  intros r.
  set (func := get_board_body expired "game-1").
  set (w1 := snd (invoke func without_refresh_token)).
  assert (invoke func without_refresh_token = (Raise unauthorized, w1))
    as H1 by (vm_compute; reflexivity).
  assert (token_signal unauthorized = true) as H2 by (vm_compute; reflexivity).
  assert (truthy (session_value "refresh_token" w1) = false)
    as H3 by (vm_compute; reflexivity).
  exact (with_token_refresh_without_refresh_token expired func
           without_refresh_token unauthorized w1 H1 H2 H3).
Defined.

(** The restoration on the session that lacks only the user name *)
Lemma restore_session_outcome_witness :
  fst (restore_session accepting restorable) = Return tt
  /\ session_state (snd (restore_session accepting restorable)) !! "username"
     = Some (VStr "alice").
Proof.
  pose proof (restore_session_outcome accepting restorable VNone (VStr "t0")
                (VStr "r0") eq_refl eq_refl eq_refl) as H.
  cbv zeta in H.
  assert (ensure_valid_token accepting restorable
          = (Return tt, snd (ensure_valid_token accepting restorable)))
    as E by (vm_compute; reflexivity).
  rewrite E in H. simpl in H. rewrite H. split; [reflexivity|].
  simpl. apply lookup_insert_eq.
Defined.

Lemma logged_in_invariants :
  client_matches_token logged_in /\ tokens_have_user logged_in.
Proof.
  split.
  - intros a H. vm_compute in H. injection H as <-. reflexivity.
  - intros _. reflexivity.
Qed.

(** The invariants on the session of alice *)
Lemma session_invariants_preserved_witness :
  client_matches_token (snd (get_board expired "game-1" logged_in))
  /\ tokens_have_user (snd (get_board expired "game-1" logged_in))
  /\ client_matches_token (snd (login_form accepting "bob" "secret" true logged_in)).
Proof.
  destruct (session_invariants_preserved expired logged_in logged_in_invariants)
    as (_ & _ & _ & _ & Hw).
  destruct (session_invariants_preserved accepting logged_in logged_in_invariants)
    as (_ & _ & Hl & _).
  destruct (Hw _ (get_board_body expired "game-1")
              (Runs.get_board_body_read_only expired "game-1")) as [H1 H2].
  split; [exact H1|]. split; [exact H2|].
  exact (proj1 (Hl "bob" "secret" true)).
Defined.

(** [main] starts on the session of alice: nothing is restored. *)
Lemma restore_session_never_fires_witness :
  restore_session unrecoverable (snd (init_session logged_in))
  = (Return tt, snd (init_session logged_in)).
Proof.
  exact (restore_session_never_fires unrecoverable logged_in
           (proj2 logged_in_invariants)).
Defined.

(** [get_board] on the expired token of alice *)
Lemma retry_carries_renewed_token_witness :
  net (snd (get_board expired "game-1" logged_in))
  = [EngineCall "t0" (chess_get_board "game-1");
     TokenPost (refresh_data (VStr "r0"));
     EngineCall "t1" (chess_get_board "game-1")].
Proof.
  assert (engine expired (net logged_in) "t0" (chess_get_board "game-1")
          = inl unauthorized) as He by reflexivity.
  assert (token_signal unauthorized = true) as Hs by (vm_compute; reflexivity).
  destruct (retry_carries_renewed_token expired (chess_get_board "game-1")
              logged_in "t0" unauthorized renewed_pair "t1" "r1"
              eq_refl He Hs eq_refl eq_refl eq_refl eq_refl) as (Hn & _).
  exact Hn.
Defined.

(** A one-character square given to [make_move] *)
Lemma make_move_unparseable_square_witness :
  make_move accepting "game-1" "e" "e4" "WHITE" logged_in
  = (Raise (Exn ValueError "Move failed"),
     set_ui (ui logged_in ++ [st_error_msg "Move failed. Please try again."])
       (tick logged_in)).
Proof.
  apply (make_move_unparseable_square accepting "game-1" "e" "e4" "WHITE"
           logged_in (Exn IndexError "string index out of range")).
  left. reflexivity.
Defined.

(** e2-e4 typed into the form by alice *)
Lemma move_form_submits_valid_squares_witness :
  let r := move_form accepting "game-1" true "WHITE" "e2" "e4" true logged_in in
  net (snd r) = [EngineCall "t0" (chess_make_white_move "game-1" e2e4)]
  /\ fst r = Rerun.
Proof.
  intros r.
  destruct (move_form_submits_valid_squares accepting "game-1" true "WHITE"
              "e"%char "2"%char "e"%char "4"%char logged_in "t0"
              eq_refl eq_refl eq_refl) as (Hn & _ & Ho & _).
  split; [exact Hn|]. exact (proj1 Ho).
Defined.

(** alice looks at the game she created as "White" against bob *)
Lemma creator_is_white_witness :
  player_is_white game_1 logged_in = (Return true, logged_in).
Proof.
  destruct (creator_is_white "alice" "bob" "White" "alice" logged_in game_1
              eq_refl) as [H _].
  exact (proj1 (H eq_refl)).
Defined.

(** A pawn reported at file -1, rank index 8 lands in the bottom right
    corner. *)
Lemma place_piece_outcome_witness :
  exists board,
    place_piece empty_board stray_pawn = inr board
    /\ cell board 7 7 = Some (Some stray_pawn).
Proof.
  destruct (Board.place_piece_outcome empty_board stray_pawn
              Board.board_shape_empty) as (board & Hp & _ & Hc & _).
  exists board. split; [exact Hp | exact Hc].
Defined.

Lemma three_pieces_valid :
  Forall (fun p => valid_position (position p))
    [white_king; white_queen; black_pawn].
Proof.
  repeat constructor; simpl; lia.
Qed.

(** King and queen both reported on e1: the queen, listed later, is
    drawn. *)
Lemma place_pieces_valid_witness :
  exists board,
    place_pieces empty_board [white_king; white_queen; black_pawn] = inr board
    /\ cell board 7 4 = Some (Some white_queen)
    /\ cell board 1 4 = Some (Some black_pawn)
    /\ cell board 0 0 = Some None.
Proof.
  destruct (Board.place_pieces_valid _ three_pieces_valid)
    as (board & Hp & _ & Hc).
  exists board. split; [exact Hp|].
  split; [exact (Hc 4 0 ltac:(lia) ltac:(lia))|].
  split; [exact (Hc 4 6 ltac:(lia) ltac:(lia))|].
  exact (Hc 0 7 ltac:(lia) ltac:(lia)).
Defined.

(** The square a1 of the empty board *)
Lemma board_html_square_witness :
  length (board_html empty_board) = 102%nat
  /\ board_html empty_board !! 82%nat = Some (square_span 7 0 None)
  /\ board_html empty_board !! 81%nat = Some (rank_label 1)
  /\ is_light 7 0 = true.
Proof.
  destruct (Board.board_html_square empty_board 0 0 Board.board_shape_empty
              ltac:(lia) ltac:(lia)) as (Hl & (c & Hc & Hs) & Hr & Hi).
  assert (Some None = Some c) as Hc' by exact Hc. injection Hc' as <-.
  split; [exact Hl|]. split; [exact Hs|]. split; [exact Hr | exact Hi].
Defined.

(** alice opens her game, white to move, and plays e2-e4. *)
Lemma game_page_moves_on_own_turn_witness :
  let r := game_page hosting "game-1" "e2" "e4" true logged_in in
  (fst r = Return tt \/ fst r = Rerun)
  /\ (net (snd r)
      = [EngineCall "t0" (get_chess_by_id "game-1");
         EngineCall "t0" (chess_get_board "game-1");
         EngineCall "t0" (chess_get_current_turn "game-1")]
      \/ exists m,
           net (snd r)
           = [EngineCall "t0" (get_chess_by_id "game-1");
              EngineCall "t0" (chess_get_board "game-1");
              EngineCall "t0" (chess_get_current_turn "game-1");
              EngineCall "t0" (chess_make_white_move "game-1" m)]).
Proof.
  assert (Forall (fun p => valid_position (position p)) [white_king; black_pawn])
    as Hv by (repeat constructor; simpl; lia).
  exact (game_page_moves_on_own_turn hosting "game-1" "e2" "e4" true logged_in
           "t0" (VStr "alice") game_1 [white_king; black_pawn] "WHITE"
           "alice" [] eq_refl eq_refl eq_refl eq_refl eq_refl eq_refl Hv).
Defined.

End Checks.
